(** * circuits.web.http: the HTTP protocol component

    A shallow embedding of [circuits/web/http.py] (class [HTTP]): the
    connection table [_clients], the [read] handler that assembles requests,
    the [response]/[stream] emitters, [simple], and the dispatch-outcome
    handlers, followed by the properties of the protocol engine.

    Python objects are mutable and shared: the [(request, response)] pair kept
    in [_clients] is the very pair carried by the events.  Objects therefore
    live in a store and are named by references. *)

From Stdlib Require Import ZArith Bool Lia Ascii DecimalString HexadecimalString.
From stdpp Require Import base option list gmap strings.

Open Scope Z_scope.
Open Scope nat_scope.

(** ** Python built-ins used by the handler *)

Module Py.

(** [str.partition]-like helper: cut at the first occurrence of [sep]. *)
Fixpoint cut (sep : ascii) (s : string) : option (string * string) :=
  match s with
  | EmptyString => None
  | String c r =>
      if Ascii.eqb c sep then Some (EmptyString, r)
      else match cut sep r with
           | Some (a, b) => Some (String c a, b)
           | None => None
           end
  end.

(** [s.split(sep, maxsplit)] for a one-character separator. *)
Fixpoint split (sep : ascii) (maxsplit : nat) (s : string) : list string :=
  match maxsplit with
  | O => [s]
  | S k => match cut sep s with
           | None => [s]
           | Some (a, b) => a :: split sep k b
           end
  end.

(** [s.split(sep)]: a string of length n holds at most n separators. *)
Definition split_all (sep : ascii) (s : string) : list string :=
  split sep (String.length s) s.

Fixpoint lstrip (s : string) : string :=
  match s with
  | EmptyString => EmptyString
  | String c r => if Ascii.is_space c then lstrip r else s
  end.

Definition rstrip (s : string) : string := String.rev (lstrip (String.rev s)).

(** [s.strip()] *)
Definition strip (s : string) : string := rstrip (lstrip s).

(** [s[n:]] *)
Fixpoint drop (n : nat) (s : string) : string :=
  match n, s with
  | O, _ => s
  | S k, EmptyString => EmptyString
  | S k, String _ r => drop k r
  end.

(** [s[:n]] *)
Fixpoint take (n : nat) (s : string) : string :=
  match n, s with
  | O, _ => EmptyString
  | S k, EmptyString => EmptyString
  | S k, String c r => String c (take k r)
  end.

Definition lower_ascii (c : ascii) : ascii :=
  let n := nat_of_ascii c in
  if (65 <=? n) && (n <=? 90) then ascii_of_nat (n + 32) else c.

(** [s.lower()] *)
Fixpoint lower (s : string) : string :=
  match s with
  | EmptyString => EmptyString
  | String c r => String (lower_ascii c) (lower r)
  end.

Definition digit (c : ascii) : option Z :=
  let n := nat_of_ascii c in
  if (48 <=? n) && (n <=? 57) then Some (Z.of_nat (n - 48)) else None.

Fixpoint digits (acc : Z) (s : string) : option Z :=
  match s with
  | EmptyString => Some acc
  | String c r => match digit c with
                  | Some d => digits (10 * acc + d)%Z r
                  | None => None
                  end
  end.

(** [int(s)] on a [str]: surrounding whitespace, an optional sign and a
    non-empty run of decimal digits; [None] stands for [ValueError]. *)
Definition int (s : string) : option Z :=
  match strip s with
  | EmptyString => None
  | String "-" (String c r) => Z.opp <$> digits 0%Z (String c r)
  | String "+" (String c r) => digits 0%Z (String c r)
  | t => digits 0%Z t
  end.

(** [str(z)] / ["%s" % z] on an integer. *)
Definition str (z : Z) : string := DecimalString.NilZero.string_of_int (Z.to_int z).

(** [hex(n)[2:]] *)
Definition hex (n : nat) : string :=
  HexadecimalString.NilZero.string_of_uint (Nat.to_hex_uint n).

(** [len(s)] *)
Definition len (s : string) : nat := String.length s.

(** Tuples of integers compare lexicographically; [lt_tuple a b] is [a < b]. *)
Fixpoint lt_tuple (a b : list Z) : bool :=
  match a, b with
  | _, [] => false
  | [], _ :: _ => true
  | x :: a', y :: b' =>
      if (x <? y)%Z then true else if (y <? x)%Z then false else lt_tuple a' b'
  end.

(** [min(a, b)]: the second argument only when it is strictly smaller. *)
Definition min_tuple (a b : list Z) : list Z := if lt_tuple b a then b else a.

End Py.

(** ** Values, objects and events *)

(** A connection is identified by its socket; an object by its place in the
    store. *)
Abbreviation Sock := nat.
Abbreviation Ref := nat.

Inductive Exn :=
| ValueError      (* unpacking, [int()] *)
| TypeError       (* string formatting with the wrong number of arguments *)
| AttributeError  (* [.next()], [.close()] or [.get()] on a value that has none *)
| IndexError      (* indexing an empty tuple *)
| InvalidRef.     (* a reference outside the store; no Python counterpart *)

Inductive Result (A : Type) :=
| Ok (a : A)
| Raise (e : Exn).
Arguments Ok {A} a.
Arguments Raise {A} e.

(** Modelled from the spec: the header mapping ([headers.py] is not among the
    sources): keys are case-insensitive, [get] returns the first value held
    for a key, or the default. *)
Module Headers.
Definition t := list (string * string).

Fixpoint get (h : t) (name default : string) : string :=
  match h with
  | [] => default
  | (k, v) :: h' =>
      if String.eqb (Py.lower k) (Py.lower name) then v else get h' name default
  end.

Definition add_header (h : t) (k v : string) : t := h ++ [(k, v)].
End Headers.

(** [cStringIO.StringIO]: a buffer and a position. [write] stores at the
    position and advances it; writing the empty string does nothing. *)
Module StringIO.
Record t := { buf : string; pos : nat }.

Definition empty : t := {| buf := ""; pos := 0 |}.

Definition write (data : string) (b : t) : t :=
  match data with
  | EmptyString => b
  | _ => {| buf := Py.take (pos b) (buf b) +:+ data
                    +:+ Py.drop (pos b + Py.len data) (buf b);
            pos := pos b + Py.len data |}
  end.

Definition tell (b : t) : nat := pos b.

Definition seek (n : nat) (b : t) : t := {| buf := buf b; pos := n |}.
End StringIO.

(** A lazy response body: the elements still to be yielded, and how many
    times [close()] has been called on it. *)
Record Generator := { pending : list string; closes : nat }.

(** The six fields returned by [urlparse]. *)
Record UrlParts := {
  url_scheme : string; url_location : string; url_path : string;
  url_params : string; url_qs : string; url_frag : string }.

(** Modelled from the spec: [errors.HTTPError] ([errors.py] is not among the
    sources): a value carrying a Request, a Response, a status code and
    optionally a message and an underlying cause. *)
Module errors.
Record HTTPError := {
  request : Ref; response : Ref; status : Z;
  message : option string; error : option string }.
End errors.

(** What a handler or the error hook may return, and what a response body
    may hold. *)
Inductive Value :=
| VNone
| VBool (b : bool)
| VInt (z : Z)
| VStr (s : string)
| VGen (g : Generator)
| VError (e : errors.HTTPError)
| VResponse (r : Ref).

(** Python truth value ([if retval:], [if response.body:]). *)
Definition truthy (v : Value) : bool :=
  match v with
  | VNone => false
  | VBool b => b
  | VInt z => negb (z =? 0)%Z
  | VStr s => negb (String.eqb s "")
  | VGen _ | VError _ | VResponse _ => true
  end.

(** [issubclass(type(v), basestring)] *)
Definition is_basestring (v : Value) : bool :=
  match v with VStr _ => true | _ => false end.

(** Modelled from the spec: [wrappers.Request] ([wrappers.py] is not among the
    sources): method, scheme, path, query string, protocol version as parsed,
    header mapping, an append-only body buffer and the [handled] flag,
    initially false. The header mapping is the one "delegated to the
    external header parser": the constructor is not given one (line 132),
    and the Request holds none until line 172 stores the parser's. *)
Module Request.
Record t := {
  sock : Sock; method : string; scheme : string; path : string;
  protocol : list Z; qs : string;
  headers : option Headers.t; body : StringIO.t; handled : bool }.

Definition new (sock : Sock) (method scheme path : string)
    (protocol : list Z) (qs : string) : t :=
  {| sock := sock; method := method; scheme := scheme; path := path;
     protocol := protocol; qs := qs;
     headers := None; body := StringIO.empty; handled := false |}.

(** [request.headers = h] *)
Definition with_headers (h : Headers.t) (r : t) : t :=
  {| sock := sock r; method := method r; scheme := scheme r; path := path r;
     protocol := protocol r; qs := qs r;
     headers := Some h; body := body r; handled := handled r |}.

Definition with_body (b : StringIO.t) (r : t) : t :=
  {| sock := sock r; method := method r; scheme := scheme r; path := path r;
     protocol := protocol r; qs := qs r;
     headers := headers r; body := b; handled := handled r |}.

Definition with_handled (b : bool) (r : t) : t :=
  {| sock := sock r; method := method r; scheme := scheme r; path := path r;
     protocol := protocol r; qs := qs r;
     headers := headers r; body := body r; handled := b |}.
End Request.

(** Modelled from the spec: [wrappers.Response]: the associated Request (none
    for protocol-level replies), the socket, status line, header mapping,
    body, protocol string and the four flags, all initially false. *)
Module Response.
Record t := {
  sock : Sock; request : option Ref; status : string; headers : Headers.t;
  body : Value; protocol : string;
  chunked : bool; stream : bool; close : bool; done : bool }.

Definition new (sock : Sock) (request : option Ref)
    (status protocol : string) : t :=
  {| sock := sock; request := request; status := status; headers := [];
     body := VNone; protocol := protocol;
     chunked := false; stream := false; close := false; done := false |}.

Definition with_status (x : string) (r : t) : t :=
  {| sock := sock r; request := request r; status := x;
     headers := headers r; body := body r; protocol := protocol r;
     chunked := chunked r; stream := stream r; close := close r;
     done := done r |}.

Definition with_headers (x : Headers.t) (r : t) : t :=
  {| sock := sock r; request := request r; status := status r;
     headers := x; body := body r; protocol := protocol r;
     chunked := chunked r; stream := stream r; close := close r;
     done := done r |}.

Definition with_body (x : Value) (r : t) : t :=
  {| sock := sock r; request := request r; status := status r;
     headers := headers r; body := x; protocol := protocol r;
     chunked := chunked r; stream := stream r; close := close r;
     done := done r |}.

Definition with_protocol (x : string) (r : t) : t :=
  {| sock := sock r; request := request r; status := status r;
     headers := headers r; body := body r; protocol := x;
     chunked := chunked r; stream := stream r; close := close r;
     done := done r |}.

Definition with_close (x : bool) (r : t) : t :=
  {| sock := sock r; request := request r; status := status r;
     headers := headers r; body := body r; protocol := protocol r;
     chunked := chunked r; stream := stream r; close := x;
     done := done r |}.

Definition with_done (x : bool) (r : t) : t :=
  {| sock := sock r; request := request r; status := status r;
     headers := headers r; body := body r; protocol := protocol r;
     chunked := chunked r; stream := stream r; close := close r;
     done := x |}.
End Response.

(** The events the component pushes ([events.py]), with their targets:
    [Write]/[Close] go to the transport ("server"), [Request] to the
    application layer ("web"); [Response], [Stream] and the [HTTPError] event
    come back to this component. *)
Module events.
Inductive Event :=
| Write (sock : Sock) (data : string)
| Close (sock : Sock)
| Request (request response : Ref)
| Response (response : Ref)
| Stream (response : Ref) (data : option string)
| HTTPError (e : errors.HTTPError).
End events.
Abbreviation Event := events.Event.

(** ** The component state and the handler monad *)

Record State := {
  _clients : gmap Sock (Ref * Ref);   (* self._clients *)
  requests : list Request.t;          (* the Request objects ever created *)
  responses : list Response.t;        (* the Response objects ever created *)
  queue : list Event                  (* events pushed and not yet delivered *)
}.

Definition initial : State :=
  {| _clients := ∅; requests := []; responses := []; queue := [] |}.

(** A handler transforms the state and either returns or raises; what it did
    before raising stays done. *)
Definition M (A : Type) : Type := State -> State * Result A.

Definition ret {A} (a : A) : M A := fun s => (s, Ok a).

Definition bind {A B} (m : M A) (k : A -> M B) : M B :=
  fun s => match m s with
           | (s', Ok a) => k a s'
           | (s', Raise e) => (s', Raise e)
           end.

Definition raise {A} (e : Exn) : M A := fun s => (s, Raise e).

Notation "'let*' x ':=' m 'in' k" := (bind m (fun x => k))
  (at level 10, x pattern, m at level 100, k at level 200).
Notation "m ';;' k" := (bind m (fun _ => k))
  (at level 100, k at level 200, right associativity).

Definition when (b : bool) (m : M unit) : M unit := if b then m else ret tt.

Definition lift {A} (r : Result A) : M A := fun s => (s, r).

Definition from_option_exn {A} (e : Exn) (o : option A) : Result A :=
  match o with Some a => Ok a | None => Raise e end.

(** [self.push(event, ...)]: the event is enqueued for a later turn. *)
Definition push (e : Event) : M unit :=
  fun s => ({| _clients := _clients s; requests := requests s;
               responses := responses s; queue := queue s ++ [e] |}, Ok tt).

Definition get_request (r : Ref) : M Request.t :=
  fun s => (s, from_option_exn InvalidRef (requests s !! r)).

Definition get_response (r : Ref) : M Response.t :=
  fun s => (s, from_option_exn InvalidRef (responses s !! r)).

Definition update_request (r : Ref) (f : Request.t -> Request.t) : M unit :=
  fun s => ({| _clients := _clients s; requests := alter f r (requests s);
               responses := responses s; queue := queue s |}, Ok tt).

Definition update_response (r : Ref) (f : Response.t -> Response.t) : M unit :=
  fun s => ({| _clients := _clients s; requests := requests s;
               responses := alter f r (responses s); queue := queue s |}, Ok tt).

(** Object creation: the new object is distinct from all existing ones. *)
Definition new_request (o : Request.t) : M Ref :=
  fun s => ({| _clients := _clients s; requests := requests s ++ [o];
               responses := responses s; queue := queue s |},
            Ok (length (requests s))).

Definition new_response (o : Response.t) : M Ref :=
  fun s => ({| _clients := _clients s; requests := requests s;
               responses := responses s ++ [o]; queue := queue s |},
            Ok (length (responses s))).

Definition lookup_client (sock : Sock) : M (option (Ref * Ref)) :=
  fun s => (s, Ok (_clients s !! sock)).

(** [self._clients[sock] = request, response] *)
Definition set_client (sock : Sock) (p : Ref * Ref) : M unit :=
  fun s => ({| _clients := <[sock := p]> (_clients s); requests := requests s;
               responses := responses s; queue := queue s |}, Ok tt).

(** [del self._clients[sock]] *)
Definition del_client (sock : Sock) : M unit :=
  fun s => ({| _clients := delete sock (_clients s); requests := requests s;
               responses := responses s; queue := queue s |}, Ok tt).

(** ** What the component takes from its collaborators *)

(** The modules [wrappers], [headers], [errors] and [constants], the standard
    [urlparse] and the handlers other components register are not part of
    [http.py]; the component is verified for any choice of them. *)
Class Env := {
  (** [wrappers.Request.server_protocol], a (major, minor) pair *)
  server_protocol : Z * Z;
  (** the status line and the protocol string a new [wrappers.Response]
      starts with *)
  default_status : string;
  default_protocol : string;
  (** [urlparse.urlparse]: the six parts of the target, or the exception it
      raises on a target it refuses *)
  urlparse : string -> Result UrlParts;
  (** [headers.parseHeaders]: the header mapping and the body bytes already
      present in the buffered text *)
  parseHeaders : string -> Result (Headers.t * string);
  (** [wrappers.Response.output]: the status line and header block *)
  output : Response.t -> list string;
  (** [constants.RESPONSES]: short and long reason phrases *)
  RESPONSES : Z -> option (string * string);
  (** [self.send(error, "httperror", self.channel)]: the handlers registered
      for the error-handling hook, called at once, and their return value *)
  send_httperror : errors.HTTPError -> M Value;
  (** what constructing an [errors.HTTPError] with a status code and an
      optional message does to the Response it is given: it pre-populates
      status, headers and body, and may ask for the connection to close; the
      socket and the [stream], [chunked] and [done] flags are not its to
      change *)
  HTTPError_init : Z -> option string -> Response.t -> Response.t;
  HTTPError_init_sock : forall c m R,
    Response.sock (HTTPError_init c m R) = Response.sock R;
  HTTPError_init_stream : forall c m R,
    Response.stream (HTTPError_init c m R) = Response.stream R;
  HTTPError_init_chunked : forall c m R,
    Response.chunked (HTTPError_init c m R) = Response.chunked R;
  HTTPError_init_done : forall c m R,
    Response.done (HTTPError_init c m R) = Response.done R
}.

Section HTTP.
Context `{Env}.

Definition server_tuple : list Z := [server_protocol.1; server_protocol.2].

(** ["HTTP/%s.%s" % t] needs exactly two arguments. *)
Definition format_protocol (t : list Z) : Result string :=
  match t with
  | [a; b] => Ok ("HTTP/" +:+ Py.str a +:+ "." +:+ Py.str b)
  | _ => Raise TypeError
  end.

(** [RESPONSES.get(code, ("???", "???",))] *)
Definition reason (code : Z) : string * string :=
  default ("???", "???") (RESPONSES code).

(** Modelled from the spec: constructing an [HTTPError] pre-populates the
    Response it carries with "a status code's standard body/headers". *)
Definition HTTPError (request response : Ref) (status : Z)
    (message error : option string) : M errors.HTTPError :=
  update_response response (HTTPError_init status message);;
  ret {| errors.request := request; errors.response := response;
         errors.status := status; errors.message := message;
         errors.error := error |}.

(** [errors.NotFound]: the [HTTPError] for status 404. *)
Definition NotFound (request response : Ref) : M errors.HTTPError :=
  HTTPError request response 404 None None.

Definition _handleError (error : errors.HTTPError) : M unit :=
  let response := errors.response error in
  let* retval := send_httperror error in
  if truthy retval then
    if is_basestring retval then
      update_response response (Response.with_body retval);;
      push (events.Response response)
    else
      match retval with
      | VError e => push (events.Response (errors.response e))
      | _ => ret tt   (* assert retval *)
      end
  else ret tt.

(** [try: data = response.body.next() except StopIteration: data = None] *)
Definition body_next (response : Ref) : M (option string) :=
  let* r := get_response response in
  match Response.body r with
  | VGen g =>
      match pending g with
      | x :: rest =>
          update_response response
            (Response.with_body (VGen {| pending := rest; closes := closes g |}));;
          ret (Some x)
      | [] => ret None
      end
  | _ => raise AttributeError
  end.

(** [response.body.close()] *)
Definition body_close (response : Ref) : M unit :=
  let* r := get_response response in
  match Response.body r with
  | VGen g =>
      update_response response
        (Response.with_body (VGen {| pending := []; closes := S (closes g) |}))
  | _ => raise AttributeError
  end.

(** [if data:] on a [str] or [None] *)
Definition nonempty (data : option string) : bool :=
  match data with
  | Some s => negb (String.eqb s "")
  | None => false
  end.

Definition CRLF : string := String "013" (String "010" "").

(** [hex(len(data))[2:] + "\r\n" + data + "\r\n"] *)
Definition chunk (data : string) : string :=
  Py.hex (Py.len data) +:+ CRLF +:+ data +:+ CRLF.

Definition last_chunk : string := "0" +:+ CRLF +:+ CRLF.

Definition stream (response : Ref) (data : option string) : M unit :=
  let* r := get_response response in
  if nonempty data then
    let data := default "" data in
    let data := if Response.chunked r then chunk data else data in
    push (events.Write (Response.sock r) data);;
    if truthy (Response.body r) && negb (Response.done r) then
      let* data := body_next response in
      push (events.Stream response data)
    else ret tt
  else
    when (truthy (Response.body r)) (body_close response);;
    when (Response.chunked r)
      (push (events.Write (Response.sock r) last_chunk));;
    when (Response.close r) (push (events.Close (Response.sock r)));;
    update_response response (Response.with_done true).

Fixpoint push_writes (sock : Sock) (l : list string) : M unit :=
  match l with
  | [] => ret tt
  | data :: l' => push (events.Write sock data);; push_writes sock l'
  end.

Definition response (response : Ref) : M unit :=
  let* r := get_response response in
  push_writes (Response.sock r) (output r);;
  if Response.stream r && truthy (Response.body r) then
    let* data := body_next response in
    push (events.Stream response data)
  else
    when (Response.chunked r && negb (Response.stream r))
      (push (events.Write (Response.sock r) last_chunk));;
    when (Response.close r) (push (events.Close (Response.sock r)));;
    update_response response (Response.with_done true).

Definition disconnect (sock : Sock) : M unit :=
  let* c := lookup_client sock in
  match c with
  | Some _ => del_client sock
  | None => ret tt
  end.

Definition simple (sock : Sock) (code : Z) (message : string) : M unit :=
  let '(short, long) := reason code in
  let message := if String.eqb message "" then short else message in
  let* response :=
    new_response (Response.new sock None default_status default_protocol) in
  update_response response (Response.with_body (VStr message));;
  update_response response
    (Response.with_status (Py.str code +:+ " " +:+ message));;
  let* r := get_response response in
  when (String.eqb (Py.take 3 (Response.status r)) "413"
        && String.eqb (Response.protocol r) "HTTP/1.1")
    (update_response response (Response.with_close true);;
     update_response response
       (fun r => Response.with_headers
                   (Headers.add_header (Response.headers r) "Connection" "close") r));;
  push (events.Response response).

(** The default error handler. *)
Definition httperror (e : errors.HTTPError) : M Value :=
  push (events.Response (errors.response e));;
  ret VNone.

Definition LF : ascii := "010".

(** Lines 126-128: the request line and its three fields. *)
Definition parse_requestline (data : string)
    : Result (string * string * string * string) :=
  match Py.split LF 1 data with
  | [requestline; data] =>
      match Py.split " " 2 (Py.strip requestline) with
      | [method; path; protocol] => Ok (method, path, protocol, data)
      | _ => Raise ValueError
      end
  | _ => Raise ValueError
  end.

Fixpoint map_int (l : list string) : Result (list Z) :=
  match l with
  | [] => Ok []
  | x :: l' =>
      match Py.int x with
      | None => Raise ValueError
      | Some z => match map_int l' with
                  | Ok zs => Ok (z :: zs)
                  | Raise e => Raise e
                  end
      end
  end.

(** [tuple(map(int, protocol[5:].split(".")))] *)
Definition parse_protocol (protocol : string) : Result (list Z) :=
  map_int (Py.split_all "." (Py.drop 5 protocol)).

(** [headers.get(name, default)] on what a Request holds as its headers:
    while it holds no mapping there is nothing to call [get] on. *)
Definition header (h : option Headers.t) (name default : string)
    : Result string :=
  match h with
  | Some m => Ok (Headers.get m name default)
  | None => Raise AttributeError
  end.

(** [int(headers.get("Content-Length", "0"))] *)
Definition content_length (h : option Headers.t) : Result Z :=
  match header h "Content-Length" "0" with
  | Ok v => from_option_exn ValueError (Py.int v)
  | Raise e => Raise e
  end.

(** [headers.get("Connection", "").lower()] *)
Definition connection (h : option Headers.t) : Result string :=
  match header h "Connection" "" with
  | Ok v => Ok (Py.lower v)
  | Raise e => Raise e
  end.

(** Lines 182-194: persistent connection support, rewind, dispatch. *)
Definition complete (request response : Ref) : M unit :=
  let* rq := get_request request in
  (if bool_decide (Request.protocol rq = [1; 1]%Z) then
     let* c := lift (connection (Request.headers rq)) in
     when (String.eqb c "close")
       (update_response response (Response.with_close true))
   else
     let* c := lift (connection (Request.headers rq)) in
     when (negb (String.eqb c "keep-alive"))
       (update_response response (Response.with_close true)));;
  update_request request
    (fun r => Request.with_body (StringIO.seek 0 (Request.body r)) r);;
  push (events.Request request response).

(** Lines 126-180: the bytes start a new request. Nothing is caught: the
    unpacking of lines 126 and 128, [urlparse] (line 129) and [int] (line
    131) raise out of the handler before any object exists. The decoded
    path of lines 140-149 is bound to a local name that is not read again,
    so it leaves no trace in the state. *)
Definition read_new (sock : Sock) (data : string) : M unit :=
  let* (method, path, protocol, data) := lift (parse_requestline data) in
  let* u := lift (urlparse path) in
  let* protocol := lift (parse_protocol protocol) in
  let* request :=
    new_request (Request.new sock method (url_scheme u) (url_path u)
                   protocol (url_qs u)) in
  let* response :=
    new_response (Response.new sock (Some request) default_status
                    default_protocol) in
  set_client sock (request, response);;
  if negb (String.eqb (url_frag u) "") then
    let* error := HTTPError request response 400 None None in
    push (events.HTTPError error)
  else
    let* major := lift (from_option_exn IndexError (head protocol)) in
    if negb (major =? server_protocol.1)%Z then
      let* error := HTTPError request response 505 None None in
      push (events.HTTPError error)
    else
      let* p := lift (format_protocol (Py.min_tuple protocol server_tuple)) in
      update_response response (Response.with_protocol p);;
      let* (headers, body) := lift (parseHeaders data) in
      update_request request (Request.with_headers headers);;
      update_request request
        (fun r => Request.with_body (StringIO.write body (Request.body r)) r);;
      if String.eqb (Headers.get headers "Expect" "") "100-continue" then
        simple sock 100 ""
      else
        let* contentLength := lift (content_length (Some headers)) in
        let* rq := get_request request in
        if negb (Z.of_nat (StringIO.tell (Request.body rq)) =? contentLength)%Z
        then ret tt
        else complete request response.

Definition read (sock : Sock) (data : string) : M unit :=
  let* c := lookup_client sock in
  match c with
  | Some (request, response) =>
      let* rs := get_response response in
      when (Response.done rs) (del_client sock)
  | None => ret tt
  end;;
  let* c := lookup_client sock in
  match c with
  | Some (request, response) =>
      update_request request
        (fun r => Request.with_body (StringIO.write data (Request.body r)) r);;
      let* rq := get_request request in
      let* contentLength := lift (content_length (Request.headers rq)) in
      if negb (Z.of_nat (StringIO.tell (Request.body rq)) =? contentLength)%Z
      then ret tt
      else complete request response
  | None => read_new sock data
  end.

(** [evt.args[:2]] is the [(request, response)] pair of the event. *)
Definition request_success_or_filtered (request response : Ref)
    (retval : Value) : M unit :=
  if truthy retval then
    update_request request (Request.with_handled true);;
    match retval with
    | VError e => _handleError e
    | VResponse r => push (events.Response r)
    | VBool _ => ret tt
    | _ =>
        update_response response (Response.with_body retval);;
        push (events.Response response)
    end
  else ret tt.

Definition request_failure (request response : Ref) (error : string)
    : M unit :=
  let* e := HTTPError request response 500 (Some "Request Failed") (Some error) in
  _handleError e.

(** [handler] is [None] when no handler matched. *)
Definition request_completed (request response : Ref)
    (handler : option string) : M unit :=
  let* rq := get_request request in
  if negb (Request.handled rq) || negb (bool_decide (is_Some handler)) then
    let* e := NotFound request response in
    _handleError e
  else ret tt.

(** ** Event delivery *)

(** Modelled from the spec: the dispatch substrate ([circuits.core] is not
    among the sources) processes the events of a connection "in the order
    enqueued", with "no reordering across turns". Events for the transport
    and the application layer leave the component; the others run the
    handler registered under their name. *)
Definition deliver (e : Event) : M unit :=
  match e with
  | events.Response r => response r
  | events.Stream r d => stream r d
  | events.HTTPError e => send_httperror e;; ret tt
  | events.Write _ _ | events.Close _ | events.Request _ _ => ret tt
  end.

Definition set_queue (q : list Event) (s : State) : State :=
  {| _clients := _clients s; requests := requests s;
     responses := responses s; queue := q |}.

(** Deliver at most [fuel] events; the result holds the events delivered,
    oldest first. *)
Fixpoint run (fuel : nat) (s : State) : State * list Event * Result unit :=
  match fuel with
  | O => (s, [], Ok tt)
  | S n =>
      match queue s with
      | [] => (s, [], Ok tt)
      | e :: q =>
          match deliver e (set_queue q s) with
          | (s', Ok _) =>
              let '(s'', tr, r) := run n s' in (s'', e :: tr, r)
          | (s', Raise x) => (s', [e], Raise x)
          end
      end
  end.

(** The bytes written to the transport, in order. *)
Definition writes (tr : list Event) : list string :=
  omap (fun e => match e with events.Write _ d => Some d | _ => None end) tr.


End HTTP.

(** ** A concrete server, for running the handlers on actual bytes *)

Module Server.

Definition cut_or (sep : ascii) (s : string) : string * string :=
  default (s, "") (Py.cut sep s).

Definition has (c : ascii) (s : string) : bool :=
  match Py.cut c s with Some _ => true | None => false end.

(** The parts of a target without scheme and parameters. *)
Definition parts (location path qs frag : string) : UrlParts :=
  {| url_scheme := ""; url_location := location; url_path := path;
     url_params := ""; url_qs := qs; url_frag := frag |}.

(** [urlparse] on a target without scheme and parameters: an optional
    [//location], a path, an optional [?query] and an optional [#fragment].
    The location ends at the first of [/], [?] and [#]; a location with one
    square bracket and not the other is refused with ValueError ("Invalid
    IPv6 URL"). *)
Definition parse_url (target : string) : Result UrlParts :=
  let (rest, frag) := cut_or "#" target in
  let (rest, qs) := cut_or "?" rest in
  if String.eqb (Py.take 2 rest) "//" then
    let (location, path) :=
      match Py.cut "/" (Py.drop 2 rest) with
      | Some (l, p) => (l, String "/" p)
      | None => (Py.drop 2 rest, "")
      end in
    if xorb (has "[" location) (has "]" location) then Raise ValueError
    else Ok (parts location path qs frag)
  else Ok (parts "" rest qs frag).

(** Modelled from the spec: the header-block parser, which "given buffered
    text, returns a header mapping and any body bytes already present in
    the same buffer": [Name: value] lines up to the first empty line. *)
Fixpoint header_lines (fuel : nat) (data : string) (acc : Headers.t)
    : Result (Headers.t * string) :=
  match fuel with
  | O => Raise ValueError
  | S n =>
      match Py.cut LF data with
      | None => Raise ValueError
      | Some (line, rest) =>
          if String.eqb (Py.strip line) "" then Ok (acc, rest)
          else match Py.cut ":" line with
               | Some (k, v) =>
                   header_lines n rest (acc ++ [(Py.strip k, Py.strip v)])
               | None => Raise ValueError
               end
      end
  end.

Definition header_block (data : string) : Result (Headers.t * string) :=
  header_lines (S (String.length data)) data [].

Definition reasons (code : Z) : option (string * string) :=
  match code with
  | 100 => Some ("Continue", "Request received, please continue")
  | 200 => Some ("OK", "Request fulfilled, document follows")
  | 400 => Some ("Bad Request", "Bad request syntax or unsupported method")
  | 404 => Some ("Not Found", "Nothing matches the given URI")
  | 413 => Some ("Request Entity Too Large", "Entity is too large.")
  | 500 => Some ("Internal Server Error", "Server got itself in trouble")
  | 505 => Some ("HTTP Version Not Supported", "Cannot fulfill request.")
  | _ => None
  end%Z.

Definition header_line (kv : string * string) : string :=
  kv.1 +:+ ": " +:+ kv.2 +:+ CRLF.

Definition render (r : Response.t) : list string :=
  [Response.protocol r +:+ " " +:+ Response.status r +:+ CRLF;
   String.concat "" (header_line <$> Response.headers r) +:+ CRLF].

(** An error Response carries the status line of its code and a body with
    the message, or the long reason phrase. *)
Definition error_init (code : Z) (message : option string) (R : Response.t)
    : Response.t :=
  let phrases := default ("???", "???") (reasons code) in
  Response.with_body (VStr (default phrases.2 message))
    (Response.with_status (Py.str code +:+ " " +:+ phrases.1) R).

(** A server speaking the given version whose error hook is the
    component's own default handler. *)
Definition env (version : Z * Z) : Env :=
  {| server_protocol := version;
     default_status := "200 OK";
     default_protocol :=
       "HTTP/" +:+ Py.str version.1 +:+ "." +:+ Py.str version.2;
     urlparse := parse_url;
     parseHeaders := header_block;
     output := render;
     RESPONSES := reasons;
     send_httperror := httperror;
     HTTPError_init := error_init;
     HTTPError_init_sock := fun _ _ _ => eq_refl;
     HTTPError_init_stream := fun _ _ _ => eq_refl;
     HTTPError_init_chunked := fun _ _ _ => eq_refl;
     HTTPError_init_done := fun _ _ _ => eq_refl |}.

(** The same server with another error hook. *)
Definition env_with_hook (version : Z * Z)
    (hook : errors.HTTPError -> M Value) : Env :=
  {| server_protocol := version;
     default_status := "200 OK";
     default_protocol :=
       "HTTP/" +:+ Py.str version.1 +:+ "." +:+ Py.str version.2;
     urlparse := parse_url;
     parseHeaders := header_block;
     output := render;
     RESPONSES := reasons;
     send_httperror := hook;
     HTTPError_init := error_init;
     HTTPError_init_sock := fun _ _ _ => eq_refl;
     HTTPError_init_stream := fun _ _ _ => eq_refl;
     HTTPError_init_chunked := fun _ _ _ => eq_refl;
     HTTPError_init_done := fun _ _ _ => eq_refl |}.

(** Join lines with the wire delimiter. *)
Definition lines (l : list string) : string :=
  String.concat "" ((fun x => x +:+ CRLF) <$> l).

End Server.

(** ** Vocabulary of the statements *)

Section Vocabulary.
Context `{Env}.

(** A buffer that has only been written to: the position is its length. *)
Definition written (B : string) : StringIO.t :=
  {| StringIO.buf := B; StringIO.pos := Py.len B |}.

Definition set_clients (c : gmap Sock (Ref * Ref)) (s : State) : State :=
  {| _clients := c; requests := requests s; responses := responses s;
     queue := queue s |}.

(** [s'] has every Response object of [s], unchanged. *)
Definition keeps_responses (s s' : State) : Prop :=
  forall r R, responses s !! r = Some R -> responses s' !! r = Some R.

(** What [_handleError] does after the hook has returned [retval] in
    state [s1]. *)
Definition after_hook (error : errors.HTTPError) (retval : Value) (s1 : State)
    : State * Result unit :=
  match retval with
  | VStr t =>
      if String.eqb t "" then (s1, Ok tt)
      else
        ({| _clients := _clients s1; requests := requests s1;
            responses :=
              alter (Response.with_body (VStr t)) (errors.response error)
                (responses s1);
            queue := queue s1 ++ [events.Response (errors.response error)] |},
         Ok tt)
  | VError e' =>
      ({| _clients := _clients s1; requests := requests s1;
          responses := responses s1;
          queue := queue s1 ++ [events.Response (errors.response e')] |},
       Ok tt)
  | VNone | VBool _ | VInt _ | VGen _ | VResponse _ => (s1, Ok tt)
  end.

(** The Response object that [simple] builds. *)
Definition simple_response (sock : Sock) (code : Z) (message : string)
    : Response.t :=
  let message := if String.eqb message "" then (reason code).1 else message in
  let r :=
    Response.with_status (Py.str code +:+ " " +:+ message)
      (Response.with_body (VStr message)
         (Response.new sock None default_status default_protocol)) in
  if String.eqb (Py.take 3 (Response.status r)) "413"
     && String.eqb (Response.protocol r) "HTTP/1.1"
  then Response.with_headers
         (Headers.add_header (Response.headers r) "Connection" "close")
         (Response.with_close true r)
  else r.

(** The events that end a response: the terminal chunk marker when the
    response is chunked, the close when it must close. *)
Definition closing_events (chunked : bool) (R : Response.t) : list Event :=
  (if chunked then [events.Write (Response.sock R) last_chunk] else [])
  ++ (if Response.close R then [events.Close (Response.sock R)] else []).

(** Persistence, as line 183 decides it: on the version the client sent,
    and on the Connection header among the headers [h] of the Request. *)
Definition closing (ver : list Z) (h : Headers.t) : bool :=
  if bool_decide (ver = [1; 1]%Z)
  then String.eqb (Py.lower (Headers.get h "Connection" "")) "close"
  else negb (String.eqb (Py.lower (Headers.get h "Connection" ""))
               "keep-alive").

(** [request.body.seek(0)] *)
Definition rewind (Q : Request.t) : Request.t :=
  Request.with_body (StringIO.seek 0 (Request.body Q)) Q.

(** [request.body.write(data)] *)
Definition append (data : string) (Q : Request.t) : Request.t :=
  Request.with_body (StringIO.write data (Request.body Q)) Q.

(** The state after completion, for a Request whose connection is to
    close or not. *)
Definition completed (rq rs : Ref) (close : bool) (s : State) : State :=
  {| _clients := _clients s;
     requests := alter rewind rq (requests s);
     responses := if close
                  then alter (Response.with_close true) rs (responses s)
                  else responses s;
     queue := queue s ++ [events.Request rq rs] |}.

Definition appended (rq : Ref) (data : string) (s : State) : State :=
  {| _clients := _clients s;
     requests := alter (append data) rq (requests s);
     responses := responses s; queue := queue s |}.

(** The connection has no entry in flight: none at all, or one whose
    Response is done and which the next read evicts. *)
Definition idle (s : State) (conn : Sock) : Prop :=
  match _clients s !! conn with
  | None => True
  | Some (_, rs) => exists R, responses s !! rs = Some R /\ Response.done R = true
  end.

Definition evict (conn : Sock) (s : State) : State :=
  set_clients (delete conn (_clients s)) s.

Definition new_Request (conn : Sock) (method : string) (u : UrlParts)
    (ver : list Z) : Request.t :=
  Request.new conn method (url_scheme u) (url_path u) ver (url_qs u).

Definition new_Response (conn : Sock) (rq : Ref) : Response.t :=
  Response.new conn (Some rq) default_status default_protocol.




(** The state after lines 126-173 for a request that passes both checks. *)
Definition accepted (conn : Sock) (method : string) (u : UrlParts)
    (ver : list Z) (p : string) (hdrs : Headers.t) (f0 : string)
    (s : State) : State :=
  let rq := length (requests s) in
  let rs := length (responses s) in
  {| _clients := <[conn := (rq, rs)]> (_clients s);
     requests := requests s
                 ++ [Request.with_body (written f0)
                       (Request.with_headers hdrs
                          (new_Request conn method u ver))];
     responses := responses s
                  ++ [Response.with_protocol p (new_Response conn rq)];
     queue := queue s |}.

(** ["".join(ds)] *)
Fixpoint join (ds : list string) : string :=
  match ds with
  | [] => ""
  | d :: ds' => d +:+ join ds'
  end.

(** The read events of one connection, delivered in order. *)
Fixpoint reads (conn : Sock) (ds : list string) : M unit :=
  match ds with
  | [] => ret tt
  | d :: ds' => read conn d;; reads conn ds'
  end.

(** The pair [(rq, rs)] is in flight on [conn]: its Response is not done
    and its Request is [Q0] with the bytes [B] written to its body. *)
Definition assembling (s : State) (conn : Sock) (rq rs : Ref)
    (Q0 : Request.t) (B : string) : Prop :=
  _clients s !! conn = Some (rq, rs) /\
  (exists R, responses s !! rs = Some R /\ Response.done R = false) /\
  requests s !! rq = Some (Request.with_body (written B) Q0).

(** Events that leave the component. *)
Definition external (e : Event) : bool :=
  match e with
  | events.Write _ _ | events.Close _ | events.Request _ _ => true
  | events.Response _ | events.Stream _ _ | events.HTTPError _ => false
  end.

Definition gen (cs : list string) (k : nat) : Value :=
  VGen {| pending := cs; closes := k |}.

(** What is written for one element of the body. *)
Definition framed (R : Response.t) (d : string) : string :=
  if Response.chunked R then chunk d else d.

Definition set_response (r : Ref) (R : Response.t) (q : list Event)
    (s : State) : State :=
  {| _clients := _clients s; requests := requests s;
     responses := <[r := R]> (responses s); queue := q |}.

(** The events delivered while the elements [cs] are pumped. *)
Fixpoint chunk_trace (r : Ref) (R : Response.t) (cs : list string)
    : list Event :=
  match cs with
  | [] => []
  | c :: cs' =>
      events.Stream r (Some c)
        :: events.Write (Response.sock R) (framed R c)
        :: chunk_trace r R cs'
  end.

(** The first delivery of a request that passes the fragment and version
    checks: it holds the request line and the whole header block, which
    parse to these parts, the target to [u], and [f0] is the part of the
    body that came along. *)
Definition opens (data method : string) (u : UrlParts) (ver : list Z)
    (p : string) (hdrs : Headers.t) (f0 : string) : Prop :=
  exists target proto rest,
    parse_requestline data = Ok (method, target, proto, rest) /\
    urlparse target = Ok u /\
    parse_protocol proto = Ok ver /\
    url_frag u = "" /\
    head ver = Some server_protocol.1 /\
    format_protocol (Py.min_tuple ver server_tuple) = Ok p /\
    parseHeaders rest = Ok (hdrs, f0).


End Vocabulary.

(** ** Sample traffic *)

Module Sample.

Definition conn : Sock := 7.

(** A server speaking HTTP/1.1, and one speaking HTTP/1.0. *)
Definition http11 : Env := Server.env (1, 1)%Z.
Definition http10 : Env := Server.env (1, 0)%Z.

(** A GET request without headers: request line, empty line. *)
Definition get (target version : string) : string :=
  Server.lines ["GET " +:+ target +:+ " " +:+ version; ""].

(** The head of an upload of five bytes. *)
Definition upload : string :=
  Server.lines ["POST /u HTTP/1.1"; "Content-Length: 5"; ""].

(** The same, asking for a 100 Continue first. *)
Definition upload_expect : string :=
  Server.lines ["POST /u HTTP/1.1"; "Content-Length: 5";
                "Expect: 100-continue"; ""].


(** A chunked streaming Response whose body yields "abc", then "de". *)
Definition streaming : Response.t :=
  {| Response.sock := conn; Response.request := None;
     Response.status := "200 OK";
     Response.headers := [("Transfer-Encoding", "chunked")];
     Response.body := VGen {| pending := ["abc"; "de"]; closes := 0 |};
     Response.protocol := "HTTP/1.1";
     Response.chunked := true; Response.stream := true;
     Response.close := false; Response.done := false |}.

Definition streaming_state : State :=
  {| _clients := ∅; requests := []; responses := [streaming];
     queue := [events.Response 0] |}.

(** An error hook that answers with a Response value, and a server using it. *)
Definition hook_with_response : errors.HTTPError -> M Value :=
  fun _ => ret (VResponse 1).

Definition hooked : Env := Server.env_with_hook (1, 1)%Z hook_with_response.

(** Two Response objects: the one of a failed request, and another one. *)
Definition two_responses : State :=
  {| _clients := ∅;
     requests := [Request.new conn "GET" "" "/" [1; 1]%Z ""];
     responses := [Response.new conn (Some 0) "404 Not Found" "HTTP/1.1";
                   Response.new conn None "200 OK" "HTTP/1.1"];
     queue := [] |}.

Definition not_found : errors.HTTPError :=
  {| errors.request := 0; errors.response := 0; errors.status := 404%Z;
     errors.message := None; errors.error := None |}.

(** The state a server is in after one delivery on a new connection. *)
Definition after (E : Env) (data : string) : State :=
  (@read E conn data initial).1.

End Sample.

(** ** What every handler keeps *)

Section Keeping.
Context `{Env}.

(** From [s] to [s']: the connection table is as it was, except perhaps at
    [conn]; a Response that was done is still there and still done; the
    queue has only been appended to; no object has gone. *)
Definition evolves (conn : option Sock) (s s' : State) : Prop :=
  (forall c, Some c <> conn -> _clients s' !! c = _clients s !! c) /\
  (forall r R, responses s !! r = Some R -> Response.done R = true ->
     exists R', responses s' !! r = Some R' /\ Response.done R' = true) /\
  (exists evs, queue s' = queue s ++ evs) /\
  length (requests s) <= length (requests s') /\
  length (responses s) <= length (responses s').

(** A handler keeps all of this, whatever the state it starts in and
    whether it returns or raises. *)
Definition preserves {A} (conn : option Sock) (m : M A) : Prop :=
  forall s, evolves conn s (m s).1.

(** Delivering queued events takes them off the queue; the rest is kept. *)
Definition settles (s s' : State) : Prop :=
  _clients s' = _clients s /\
  (forall r R, responses s !! r = Some R -> Response.done R = true ->
     exists R', responses s' !! r = Some R' /\ Response.done R' = true) /\
  length (requests s) <= length (requests s') /\
  length (responses s) <= length (responses s').

(** The Response [r] is there and done. *)
Definition still_done (r : Ref) (s : State) : Prop :=
  exists R, responses s !! r = Some R /\ Response.done R = true.

(** The queue of [s'] is the queue of [s] with events appended. *)
Definition appended_to (s s' : State) : Prop :=
  exists evs, queue s' = queue s ++ evs.

(** A return value that is neither empty, nor a boolean, nor an error, nor
    a Response: it replaces the body as it is. *)
Definition opaque_body (v : Value) : bool :=
  truthy v && match v with
              | VStr _ | VInt _ | VGen _ => true
              | VNone | VBool _ | VError _ | VResponse _ => false
              end.

(** The state after line 134: the new pair is in the table. *)
Definition registered (conn : Sock) (method : string) (u : UrlParts)
    (ver : list Z) (s : State) : State :=
  let rq := length (requests s) in
  let rs := length (responses s) in
  {| _clients := <[conn := (rq, rs)]> (_clients s);
     requests := requests s ++ [new_Request conn method u ver];
     responses := responses s ++ [new_Response conn rq];
     queue := queue s |}.

(** The state after line 169: the response protocol has been set. *)
Definition negotiated (conn : Sock) (method : string) (u : UrlParts)
    (ver : list Z) (p : string) (s : State) : State :=
  let rq := length (requests s) in
  let rs := length (responses s) in
  {| _clients := <[conn := (rq, rs)]> (_clients s);
     requests := requests s ++ [new_Request conn method u ver];
     responses := responses s
                  ++ [Response.with_protocol p (new_Response conn rq)];
     queue := queue s |}.

(** Whether [simple] forces the connection to close. *)
Definition forces_close (code : Z) : bool :=
  String.eqb (Py.take 3 (Py.str code)) "413"
  && String.eqb default_protocol "HTTP/1.1".

(** The pair [(rq, rs)] has been dispatched and its Response is not done:
    the body [B] is complete and rewound. *)
Definition awaiting (s : State) (conn : Sock) (rq rs : Ref)
    (Q0 : Request.t) (B : string) : Prop :=
  _clients s !! conn = Some (rq, rs) /\
  (exists R, responses s !! rs = Some R /\ Response.done R = false) /\
  requests s !! rq
    = Some (Request.with_body
              {| StringIO.buf := B; StringIO.pos := 0 |} Q0).

End Keeping.

(** Further sample traffic. *)
Module Traffic.

(** A request line with a one-component version. *)
Definition short_version : string := Sample.get "/" "HTTP/1".


(** A Content-Length that is not a number. *)
Definition bad_length : string :=
  Server.lines ["POST /u HTTP/1.1"; "Content-Length: five"; ""].

(** An upload of three bytes, complete in one delivery. *)
Definition small_upload : string :=
  Server.lines ["POST /u HTTP/1.1"; "Content-Length: 3"; ""] +:+ "abc".

(** The Request of [Sample.upload], before any body byte. *)
Definition upload_request : Request.t :=
  Request.with_headers [("Content-Length", "5")]
    (Request.new Sample.conn "POST" "" "/u" [1; 1]%Z "").

(** The Request of [small_upload]. *)
Definition small_request : Request.t :=
  Request.with_headers [("Content-Length", "3")]
    (Request.new Sample.conn "POST" "" "/u" [1; 1]%Z "").

(** A streaming Response that is not chunked. *)
Definition unchunked : Response.t :=
  {| Response.sock := Sample.conn; Response.request := None;
     Response.status := "200 OK"; Response.headers := [];
     Response.body := VGen {| pending := ["abc"; "de"]; closes := 0 |};
     Response.protocol := "HTTP/1.0";
     Response.chunked := false; Response.stream := true;
     Response.close := true; Response.done := false |}.

Definition unchunked_state : State :=
  {| _clients := ∅; requests := []; responses := [unchunked];
     queue := [events.Response 0] |}.

(** A Response flagged as streaming whose body is a string. *)
Definition mislabelled : Response.t :=
  {| Response.sock := Sample.conn; Response.request := None;
     Response.status := "200 OK"; Response.headers := [];
     Response.body := VStr "hello";
     Response.protocol := "HTTP/1.1";
     Response.chunked := false; Response.stream := true;
     Response.close := false; Response.done := false |}.

Definition mislabelled_state : State :=
  {| _clients := ∅; requests := []; responses := [mislabelled];
     queue := [] |}.

(** A server that has dispatched [small_upload] and delivered the event. *)
Definition dispatched_state : State :=
  set_queue [] (Sample.after Sample.http11 small_upload).

(** A pair in flight and a second Response, nothing queued. *)
Definition answered : State :=
  {| _clients := {[Sample.conn := (0, 0)]};
     requests := [Request.new Sample.conn "GET" "" "/" [1; 1]%Z ""];
     responses := [Response.new Sample.conn (Some 0) "200 OK" "HTTP/1.1";
                   Response.new Sample.conn None "302 Found" "HTTP/1.1"];
     queue := [] |}.






(** A server that has received [Sample.upload] and seven body bytes. *)
Definition overlong : State :=
  Sample.after Sample.http11 (Sample.upload +:+ "abcdefg").

End Traffic.

(** The first steps of [read_new] once the request line has parsed. *)
Ltac start_read_new Hline Hurl Hver :=
  unfold read_new, bind, lift; rewrite Hline, Hurl, Hver;
  unfold new_request, new_response, set_client;
  cbn [_clients requests responses queue].

(** ** Python built-ins on examples *)

Example split_requestline :
  Py.split " " 2 "GET /index.html HTTP/1.1" = ["GET"; "/index.html"; "HTTP/1.1"].
Proof. reflexivity. Qed.

Example split_version : Py.split_all "." (Py.drop 5 "HTTP/1.1") = ["1"; "1"].
Proof. reflexivity. Qed.

Example int_examples :
  Py.int "1" = Some 1%Z /\ Py.int " 42 " = Some 42%Z /\ Py.int "x" = None /\ Py.int "" = None.
Proof. repeat split; reflexivity. Qed.

Example hex_examples : Py.hex 3 = "3" /\ Py.hex 255 = "ff" /\ Py.hex 0 = "0".
Proof. repeat split; reflexivity. Qed.

Example str_examples : Py.str 505 = "505" /\ Py.str 0 = "0" /\ Py.str (-3) = "-3".
Proof. repeat split; reflexivity. Qed.

Example parse_url_examples :
  Server.parse_url "/a/b?x=1#top" = Ok (Server.parts "" "/a/b" "x=1" "top") /\
  Server.parse_url "//host/p" = Ok (Server.parts "host" "/p" "" "") /\
  Server.parse_url "//[::1]/p" = Ok (Server.parts "[::1]" "/p" "" "") /\
  Server.parse_url "//[" = Raise ValueError /\
  Server.parse_url "//[#f" = Raise ValueError.
Proof. repeat split; reflexivity. Qed.

(** ** Basic facts about strings, buffers and the store *)

Lemma app_cons (c : ascii) (a b : string) :
  String c a +:+ b = String c (a +:+ b).
Proof. reflexivity. Qed.

Lemma len_app (a b : string) : Py.len (a +:+ b) = Py.len a + Py.len b.
Proof.
  induction a as [|c a IH]; [reflexivity|].
  rewrite app_cons. unfold Py.len in *. simpl. rewrite IH. reflexivity.
Qed.

Lemma app_empty_r (a : string) : a +:+ "" = a.
Proof.
  induction a as [|c a IH]; [reflexivity|].
  rewrite app_cons, IH. reflexivity.
Qed.

Lemma app_assoc_str (a b c : string) : (a +:+ b) +:+ c = a +:+ (b +:+ c).
Proof.
  induction a as [|x a IH]; [reflexivity|].
  rewrite !app_cons, IH. reflexivity.
Qed.

Lemma take_all (s : string) : Py.take (Py.len s) s = s.
Proof. induction s as [|c s IH]; simpl; [reflexivity|]. f_equal. exact IH. Qed.

Lemma drop_ge (n : nat) (s : string) : Py.len s <= n -> Py.drop n s = "".
Proof.
  revert n. induction s as [|c s IH]; intros [|n] Hn; simpl in *;
    try reflexivity; try lia.
  apply IH. lia.
Qed.

Lemma write_written (B d : string) :
  StringIO.write d (written B) = written (B +:+ d).
Proof.
  unfold StringIO.write, written; simpl.
  destruct d as [|c d]; [rewrite app_empty_r; reflexivity|].
  rewrite take_all, drop_ge by lia.
  rewrite app_empty_r, len_app. reflexivity.
Qed.

(** ** Frame facts: what a handler leaves alone *)

Lemma lookup_alter_old {A} (f : A -> A) (l : list A) (o : A) (r : nat) (x : A) :
  l !! r = Some x -> alter f (length l) (l ++ [o]) !! r = Some x.
Proof.
  intros Hr. pose proof (lookup_lt_Some _ _ _ Hr).
  rewrite list_lookup_alter_ne by lia. apply lookup_app_l_Some, Hr.
Qed.

Lemma lookup_fresh {A} (l : list A) : l !! length l = None.
Proof. apply lookup_ge_None_2. lia. Qed.

Section Outcome.
Context `{Env}.

(** C9. For a success or filtered outcome whose return value is a boolean
    and non-empty (so it is True), the request is marked handled and
    nothing else happens: no event is pushed, and the Response objects,
    their bodies included, and the connection table are as before. *)
Theorem boolean_result_marks_handled_only (request response : Ref) (b : bool)
    (s : State) :
  truthy (VBool b) = true ->
  exists s',
    request_success_or_filtered request response (VBool b) s = (s', Ok tt) /\
    requests s' !! request
      = Request.with_handled true <$> requests s !! request /\
    Request.handled <$> requests s' !! request
      = (fun _ => true) <$> requests s !! request /\
    (forall r, r <> request -> requests s' !! r = requests s !! r) /\
    queue s' = queue s /\
    responses s' = responses s /\
    _clients s' = _clients s.
Proof.
  intros Hb. unfold request_success_or_filtered. rewrite Hb.
  eexists. split; [reflexivity|]. cbn [requests queue responses _clients].
  repeat split.
  - apply list_lookup_alter_eq.
  - rewrite list_lookup_alter_eq. destruct (requests s !! request); reflexivity.
  - intros r Hr. apply list_lookup_alter_ne. congruence.
Qed.

(** A False result is empty: the handler does nothing at all. *)
Lemma false_result_is_ignored (request response : Ref) (s : State) :
  request_success_or_filtered request response (VBool false) s = (s, Ok tt).
Proof. reflexivity. Qed.

(** C8, as the code has it. The error goes to the hook. A non-empty text
    returned by the hook becomes the body of the error's Response, which is
    emitted; a returned [HTTPError] value has its own Response emitted
    instead; for every other return value, a Response value and nothing
    included, [_handleError] emits nothing itself. When the hook is the
    default handler, that handler is what emits the error's pre-built
    Response, unchanged, and exactly once. *)
Theorem handleError_by_hook_result (error : errors.HTTPError) (s : State) :
  (forall s1 retval,
      send_httperror error s = (s1, Ok retval) ->
      _handleError error s = after_hook error retval s1) /\
  (forall s1 e,
      send_httperror error s = (s1, Raise e) ->
      _handleError error s = (s1, Raise e)) /\
  (send_httperror error = httperror error ->
   exists s',
     _handleError error s = (s', Ok tt) /\
     queue s' = queue s ++ [events.Response (errors.response error)] /\
     responses s' = responses s /\ requests s' = requests s /\
     _clients s' = _clients s).
Proof.
  split; [|split].
  - intros s1 retval Hhook. unfold _handleError, bind. rewrite Hhook.
    destruct retval as [| [] | z | t | g | e' | r]; simpl; try reflexivity.
    + destruct (z =? 0)%Z; reflexivity.
    + destruct (String.eqb t ""); reflexivity.
  - intros s1 e Hhook. unfold _handleError, bind. rewrite Hhook. reflexivity.
  - intros Hdef. unfold _handleError, bind. rewrite Hdef.
    eexists. split; [reflexivity|]. simpl. repeat split.
Qed.

End Outcome.

Lemma alter_new {A} (f : A -> A) (l : list A) (o : A) :
  alter f (length l) (l ++ [o]) = l ++ [f o].
Proof.
  replace (length l) with (length l + 0) at 1 by lia.
  rewrite alter_app_r. reflexivity.
Qed.

Lemma lookup_new {A} (l : list A) (o : A) : (l ++ [o]) !! length l = Some o.
Proof. apply list_lookup_middle. reflexivity. Qed.

Lemma keeps_responses_app (s s' : State) (l : list Response.t) :
  responses s' = responses s ++ l -> keeps_responses s s'.
Proof. intros E r R Hr. rewrite E. apply lookup_app_l_Some, Hr. Qed.

Section Simple.
Context `{Env}.

Lemma simple_eq (sock : Sock) (code : Z) (message : string) (s : State) :
  simple sock code message s =
    ({| _clients := _clients s; requests := requests s;
        responses := responses s ++ [simple_response sock code message];
        queue := queue s ++ [events.Response (length (responses s))] |},
     Ok tt).
Proof.
  unfold simple, simple_response.
  destruct (reason code) as [short long]; cbn [fst].
  unfold bind, new_response, update_response, get_response, push, when, ret;
    cbn [_clients requests responses queue].
  rewrite !alter_new, lookup_new; cbn [from_option_exn].
  match goal with |- context [if ?c then _ else _] => destruct c end.
  - match goal with |- context [if ?c then _ else _] => destruct c end;
      cbn [_clients requests responses queue];
      rewrite ?alter_new; reflexivity.
  - match goal with |- context [if ?c then _ else _] => destruct c end;
      cbn [_clients requests responses queue];
      rewrite ?alter_new; reflexivity.
Qed.

Lemma simple_response_fresh (sock : Sock) (code : Z) (message : string) :
  let R := simple_response sock code message in
  Response.request R = None /\ Response.sock R = sock /\
  Response.done R = false /\ Response.stream R = false /\
  Response.chunked R = false.
Proof.
  unfold simple_response; cbv zeta.
  match goal with |- context [if ?c then _ else _] => destruct c end;
    repeat split.
Qed.

End Simple.

(** ** The emitter and the assembler, step by step *)

Section Steps.
Context `{Env}.

Lemma push_writes_eq (sock : Sock) (l : list string) (s : State) :
  push_writes sock l s =
    (set_queue (queue s ++ (events.Write sock <$> l)) s, Ok tt).
Proof.
  revert s. induction l as [|d l IH]; intros s.
  - simpl. unfold ret, set_queue. rewrite app_nil_r. destruct s; reflexivity.
  - simpl. unfold bind, push. rewrite IH. unfold set_queue.
    cbn [_clients requests responses queue].
    rewrite <- app_assoc. reflexivity.
Qed.

(** [response] on a Response that is not streaming (or has no body):
    the header block, the end events, and [done]. *)
Lemma response_fixed (r : Ref) (R : Response.t) (s : State) :
  responses s !! r = Some R ->
  Response.stream R && truthy (Response.body R) = false ->
  response r s =
    ({| _clients := _clients s; requests := requests s;
        responses := alter (Response.with_done true) r (responses s);
        queue := queue s ++ (events.Write (Response.sock R) <$> output R)
                 ++ closing_events
                      (Response.chunked R && negb (Response.stream R)) R |},
     Ok tt).
Proof.
  intros Hr Hs. unfold response, bind, get_response. rewrite Hr.
  cbn [from_option_exn]. rewrite push_writes_eq, Hs.
  unfold closing_events, when, push, update_response, ret, set_queue.
  destruct (Response.chunked R && negb (Response.stream R)),
    (Response.close R);
    cbn [_clients requests responses queue app];
    rewrite <- ?app_assoc, ?app_nil_r; reflexivity.
Qed.

Lemma content_length_stored (h : option Headers.t) (L : Z) :
  content_length h = Ok L -> exists m, h = Some m.
Proof. destruct h as [m|]; [eauto|discriminate]. Qed.

Lemma complete_eq (rq rs : Ref) (Q : Request.t) (h : Headers.t) (s : State) :
  requests s !! rq = Some Q ->
  Request.headers Q = Some h ->
  complete rq rs s
    = (completed rq rs (closing (Request.protocol Q) h) s, Ok tt).
Proof.
  intros HQ Hh. unfold complete, completed, closing, bind, get_request.
  rewrite HQ. cbn [from_option_exn]. rewrite Hh.
  unfold connection, header, lift, when, update_response, update_request,
    push, ret.
  destruct (bool_decide (Request.protocol Q = [1; 1]%Z));
    match goal with |- context [String.eqb ?a ?b] => destruct (String.eqb a b) end;
    reflexivity.
Qed.

(** [read] on a connection whose entry is still in flight: lines 119-124,
    then completion. *)
Lemma read_live (conn : Sock) (data : string) (s : State) (rq rs : Ref)
    (R : Response.t) (Q : Request.t) :
  _clients s !! conn = Some (rq, rs) ->
  responses s !! rs = Some R -> Response.done R = false ->
  requests s !! rq = Some Q ->
  read conn data s =
    match Request.headers Q with
    | None => (appended rq data s, Raise AttributeError)
    | Some h =>
        match content_length (Some h) with
        | Raise e => (appended rq data s, Raise e)
        | Ok L =>
            if (Z.of_nat (StringIO.tell (Request.body (append data Q))) =? L)%Z
            then (completed rq rs (closing (Request.protocol Q) h)
                    (appended rq data s), Ok tt)
            else (appended rq data s, Ok tt)
        end
    end.
Proof.
  intros Hc HR Hd HQ.
  unfold read, bind, lookup_client. rewrite Hc.
  unfold get_response. rewrite HR. cbn [from_option_exn].
  rewrite Hd. unfold when, ret. rewrite Hc.
  unfold update_request, get_request. cbn [_clients requests responses queue].
  rewrite list_lookup_alter_eq, HQ. cbn [fmap option_fmap option_map from_option_exn].
  unfold lift. change (Request.headers (Request.with_body _ Q)) with (Request.headers Q).
  destruct (Request.headers Q) as [h|] eqn:Hh; [|reflexivity].
  destruct (content_length (Some h)) as [L|e]; [|reflexivity].
  fold (append data Q).
  destruct (Z.of_nat (StringIO.tell (Request.body (append data Q))) =? L)%Z;
    cbn [negb]; [|reflexivity].
  rewrite (complete_eq rq rs (append data Q) h); [reflexivity| |exact Hh].
  cbn [requests]. rewrite list_lookup_alter_eq, HQ. reflexivity.
Qed.

(** The same when the length declared by the stored headers is known. *)
Lemma read_live_length (conn : Sock) (data : string) (s : State) (rq rs : Ref)
    (R : Response.t) (Q : Request.t) (L : Z) :
  _clients s !! conn = Some (rq, rs) ->
  responses s !! rs = Some R -> Response.done R = false ->
  requests s !! rq = Some Q ->
  content_length (Request.headers Q) = Ok L ->
  exists h,
    Request.headers Q = Some h /\
    read conn data s =
      if (Z.of_nat (StringIO.tell (Request.body (append data Q))) =? L)%Z
      then (completed rq rs (closing (Request.protocol Q) h)
              (appended rq data s), Ok tt)
      else (appended rq data s, Ok tt).
Proof.
  intros Hc HR Hd HQ HL.
  destruct (content_length_stored _ _ HL) as [h Hh].
  exists h. split; [exact Hh|].
  rewrite (read_live conn data s rq rs R Q Hc HR Hd HQ), Hh.
  rewrite Hh in HL. rewrite HL. reflexivity.
Qed.

(** When the length cannot be read, the delivery has been written to the
    body and the exception leaves the handler. *)
Lemma read_live_error (conn : Sock) (data : string) (s : State) (rq rs : Ref)
    (R : Response.t) (Q : Request.t) (e : Exn) :
  _clients s !! conn = Some (rq, rs) ->
  responses s !! rs = Some R -> Response.done R = false ->
  requests s !! rq = Some Q ->
  content_length (Request.headers Q) = Raise e ->
  read conn data s = (appended rq data s, Raise e).
Proof.
  intros Hc HR Hd HQ HL.
  rewrite (read_live conn data s rq rs R Q Hc HR Hd HQ).
  destruct (Request.headers Q) as [h|]; [rewrite HL; reflexivity|].
  injection HL as <-. reflexivity.
Qed.

Lemma read_idle (conn : Sock) (data : string) (s : State) :
  idle s conn -> read conn data s = read_new conn data (evict conn s).
Proof.
  unfold idle, read, bind, lookup_client.
  destruct (_clients s !! conn) as [[rq rs]|] eqn:Hc.
  - intros (R & HR & Hd). unfold get_response. rewrite HR.
    cbn [from_option_exn]. rewrite Hd. unfold when, del_client.
    cbn [_clients]. rewrite lookup_delete_eq. reflexivity.
  - intros _. unfold ret. rewrite Hc. unfold evict, set_clients.
    rewrite delete_id by exact Hc. destruct s; reflexivity.
Qed.

End Steps.

Section NewRequest.
Context `{Env}.

(** An exception of [urlparse] leaves the handler before any object is
    created. *)
Lemma read_new_target_error (conn : Sock) (data : string) (s : State)
    (method target proto rest : string) (e : Exn) :
  parse_requestline data = Ok (method, target, proto, rest) ->
  urlparse target = Raise e ->
  read_new conn data s = (s, Raise e).
Proof.
  intros Hline Hurl. unfold read_new, bind, lift. rewrite Hline, Hurl.
  reflexivity.
Qed.



Lemma read_new_accepted (conn : Sock) (data : string) (s : State)
    (method target proto rest : string) (u : UrlParts) (ver : list Z)
    (p : string) (hdrs : Headers.t) (f0 : string) :
  parse_requestline data = Ok (method, target, proto, rest) ->
  urlparse target = Ok u ->
  parse_protocol proto = Ok ver ->
  url_frag u = "" ->
  head ver = Some server_protocol.1 ->
  format_protocol (Py.min_tuple ver server_tuple) = Ok p ->
  parseHeaders rest = Ok (hdrs, f0) ->
  let s1 := accepted conn method u ver p hdrs f0 s in
  read_new conn data s =
    if String.eqb (Headers.get hdrs "Expect" "") "100-continue"
    then simple conn 100 "" s1
    else match content_length (Some hdrs) with
         | Raise e => (s1, Raise e)
         | Ok L =>
             if (Z.of_nat (Py.len f0) =? L)%Z
             then complete (length (requests s)) (length (responses s)) s1
             else (s1, Ok tt)
         end.
Proof.
  intros Hline Hurl Hver Hfrag Hmajor Hfmt Hhdr s1.
  start_read_new Hline Hurl Hver.
  rewrite Hfrag, Hmajor. cbn [negb String.eqb from_option_exn].
  rewrite Z.eqb_refl. cbn [negb]. rewrite Hfmt, Hhdr.
  unfold update_response, update_request, get_request.
  cbn [_clients requests responses queue].
  rewrite !alter_new.
  cbn [Request.body Request.with_headers Request.new].
  change (StringIO.write f0 StringIO.empty) with (StringIO.write f0 (written "")).
  rewrite write_written. change ("" +:+ f0) with f0.
  fold (new_Request conn method u ver).
  fold (new_Response conn (length (requests s))).
  fold (accepted conn method u ver p hdrs f0 s).
  fold s1.
  destruct (String.eqb (Headers.get hdrs "Expect" "") "100-continue");
    [reflexivity|].
  destruct (content_length (Some hdrs)) as [L|e]; [|reflexivity].
  replace (requests s1 !! length (requests s))
    with (Some (Request.with_body (written f0)
                  (Request.with_headers hdrs
                     (new_Request conn method u ver))))
    by (symmetry; apply lookup_new).
  cbn [from_option_exn Request.body Request.with_body StringIO.tell written
       StringIO.pos].
  destruct (Z.of_nat (Py.len f0) =? L)%Z; reflexivity.
Qed.

End NewRequest.

(** ** A request being assembled over several deliveries *)


Section Assembly.
Context `{Env}.

(** A delivery that does not bring the body to the declared length only
    grows the body. *)
Lemma read_pending (conn : Sock) (d : string) (s : State) (rq rs : Ref)
    (Q0 : Request.t) (B : string) (L : Z) :
  assembling s conn rq rs Q0 B ->
  content_length (Request.headers Q0) = Ok L ->
  Z.of_nat (Py.len (B +:+ d)) <> L ->
  exists s',
    read conn d s = (s', Ok tt) /\ queue s' = queue s /\
    responses s' = responses s /\
    assembling s' conn rq rs Q0 (B +:+ d).
Proof.
  intros (Hc & (R & HR & Hd) & HQ) HL Hne.
  destruct (read_live_length conn d s rq rs R _ L Hc HR Hd HQ HL)
    as (h & _ & ->).
  unfold append. cbn [Request.body Request.with_body].
  rewrite write_written. cbn [written StringIO.tell StringIO.pos].
  apply Z.eqb_neq in Hne. rewrite Hne.
  eexists. split; [reflexivity|]. split; [reflexivity|]. split; [reflexivity|].
  split; [exact Hc|]. split; [exists R; split; assumption|].
  cbn [appended requests]. rewrite list_lookup_alter_eq, HQ.
  cbn [fmap option_fmap option_map]. unfold append.
  cbn [Request.body Request.with_body]. rewrite write_written. reflexivity.
Qed.


(** A delivery to a pair whose declared length cannot be read: the bytes
    have been written to the body when the exception leaves the handler,
    and nothing is pushed. *)
Lemma read_raising (conn : Sock) (d : string) (s : State) (rq rs : Ref)
    (Q0 : Request.t) (B : string) (e : Exn) :
  assembling s conn rq rs Q0 B ->
  content_length (Request.headers Q0) = Raise e ->
  exists s',
    read conn d s = (s', Raise e) /\ queue s' = queue s /\
    assembling s' conn rq rs Q0 (B +:+ d).
Proof.
  intros (Hc & (R & HR & Hd) & HQ) HL.
  rewrite (read_live_error conn d s rq rs R _ e Hc HR Hd HQ HL).
  eexists. split; [reflexivity|]. split; [reflexivity|].
  split; [exact Hc|]. split; [exists R; split; assumption|].
  cbn [appended requests]. rewrite list_lookup_alter_eq, HQ.
  cbn [fmap option_fmap option_map]. unfold append.
  cbn [Request.body Request.with_body]. rewrite write_written. reflexivity.
Qed.

(** In particular while the Request holds no headers: lines 121-122 write
    the bytes and fail to read the length. *)
Lemma read_without_headers (conn : Sock) (d : string) (s : State)
    (rq rs : Ref) (Q0 : Request.t) (B : string) :
  assembling s conn rq rs Q0 B ->
  Request.headers Q0 = None ->
  exists s',
    read conn d s = (s', Raise AttributeError) /\ queue s' = queue s /\
    assembling s' conn rq rs Q0 (B +:+ d).
Proof.
  intros Ha Hh. apply read_raising; [exact Ha|].
  rewrite Hh. reflexivity.
Qed.

(** Deliveries none of which brings the body to the declared length. *)
Lemma reads_pending (conn : Sock) (rq rs : Ref) (Q0 : Request.t) (L : Z)
    (ds : list string) :
  forall (s : State) (B : string),
    assembling s conn rq rs Q0 B ->
    content_length (Request.headers Q0) = Ok L ->
    (forall k, 0 < k <= length ds ->
               Z.of_nat (Py.len (B +:+ join (take k ds))) <> L) ->
    exists s',
      reads conn ds s = (s', Ok tt) /\ queue s' = queue s /\
      responses s' = responses s /\
      assembling s' conn rq rs Q0 (B +:+ join ds).
Proof.
  induction ds as [|d ds IH]; intros s B Ha HL Hpre.
  - exists s. simpl. rewrite app_empty_r. repeat split; try reflexivity; apply Ha.
  - destruct (read_pending conn d s rq rs Q0 B L Ha HL) as (s1 & Hr & Hq & Hrs & Ha1).
    { specialize (Hpre 1). cbn [take join length] in Hpre.
      rewrite app_empty_r in Hpre. apply Hpre. lia. }
    destruct (IH s1 (B +:+ d) Ha1 HL) as (s2 & Hr2 & Hq2 & Hrs2 & Ha2).
    { intros k Hk. specialize (Hpre (S k)). cbn [take join length] in Hpre.
      rewrite app_assoc_str. apply Hpre. lia. }
    exists s2. simpl. unfold bind. rewrite Hr.
    split; [exact Hr2|]. split; [congruence|]. split; [congruence|].
    rewrite <- app_assoc_str. exact Ha2.
Qed.

End Assembly.

(** ** Rejected requests: fragment and protocol version *)

Section Rejection.
Context `{Env}.




End Rejection.

(** ** Delivering queued events *)

Lemma alter_insert {A} (f : A -> A) (l : list A) (i : nat) (x : A) :
  l !! i = Some x -> alter f i l = <[i := f x]> l.
Proof.
  revert i. induction l as [|y l IH]; intros [|i] Hi; simpl in *;
    try discriminate.
  - injection Hi as ->. reflexivity.
  - f_equal. apply IH, Hi.
Qed.

Section Delivery.
Context `{Env}.

Lemma run_empty (n : nat) (s : State) :
  queue s = [] -> run n s = (s, [], Ok tt).
Proof. intros Hq. destruct n; simpl; [|rewrite Hq]; reflexivity. Qed.

Lemma run_handler (n : nat) (s s' : State) (e : Event) (q : list Event) :
  queue s = e :: q ->
  deliver e (set_queue q s) = (s', Ok tt) ->
  run (S n) s = (let '(s'', tr, r) := run n s' in (s'', e :: tr, r)).
Proof. intros Hq Hd. simpl. rewrite Hq, Hd. reflexivity. Qed.

Lemma set_queue_queue (s : State) : set_queue (queue s) s = s.
Proof. destruct s; reflexivity. Qed.

Lemma run_external (evs : list Event) :
  forall (n : nat) (s : State) (q : list Event),
    forallb external evs = true ->
    queue s = evs ++ q ->
    run (length evs + n) s
      = (let '(s', tr, r) := run n (set_queue q s) in (s', evs ++ tr, r)).
Proof.
  induction evs as [|e evs IH]; intros n s q Hext Hq.
  - simpl in *. rewrite <- Hq, set_queue_queue.
    destruct (run n s) as [[s' tr] r]. reflexivity.
  - simpl in Hext. apply andb_true_iff in Hext as [He Hext].
    cbn [length Nat.add app].
    rewrite (run_handler _ s (set_queue (evs ++ q) s) e (evs ++ q));
      [|exact Hq|destruct e; try discriminate; reflexivity].
    rewrite (IH n (set_queue (evs ++ q) s) q Hext eq_refl).
    unfold set_queue. cbn [_clients requests responses queue].
    destruct (run n _) as [[s' tr] r]. reflexivity.
Qed.

(** Delivery composes: [n + m] events are [n] events, then [m] more. *)
Lemma run_app (n m : nat) :
  forall s : State,
    run (n + m) s =
      match run n s with
      | (s1, tr1, Ok _) =>
          let '(s2, tr2, r) := run m s1 in (s2, tr1 ++ tr2, r)
      | (s1, tr1, Raise e) => (s1, tr1, Raise e)
      end.
Proof.
  induction n as [|n IH]; intros s.
  - simpl. destruct (run m s) as [[s2 tr2] r]. reflexivity.
  - cbn [Nat.add run]. destruct (queue s) as [|e q] eqn:Hq.
    + rewrite (run_empty m s Hq). reflexivity.
    + destruct (deliver e (set_queue q s)) as [s' [[]|x]]; [|reflexivity].
      rewrite IH. destruct (run n s') as [[s1 tr1] [[]|x]]; [|reflexivity].
      destruct (run m s1) as [[s2 tr2] r]. reflexivity.
Qed.

(** *** The pump *)

(** A pump step on a non-empty element: it is framed and written, and the
    next element is pulled and scheduled. *)
Lemma stream_element (r : Ref) (R : Response.t) (d : string)
    (cs : list string) (k : nat) (s : State) :
  responses s !! r = Some R ->
  Response.body R = gen cs k ->
  Response.done R = false ->
  d <> "" ->
  stream r (Some d) s =
    (set_response r (Response.with_body (gen (tail cs) k) R)
       (queue s ++ [events.Write (Response.sock R) (framed R d);
                    events.Stream r (head cs)]) s,
     Ok tt).
Proof.
  intros HR Hb Hd Hne. unfold stream, bind, get_response. rewrite HR.
  cbn [from_option_exn nonempty]. apply String.eqb_neq in Hne. rewrite Hne.
  cbn [negb default]. unfold push at 1. cbn [_clients requests responses queue].
  rewrite Hb, Hd. cbn [truthy gen negb andb].
  unfold body_next, bind, get_response. cbn [responses]. rewrite HR.
  cbn [from_option_exn]. rewrite Hb. cbn [gen pending closes].
  unfold set_response, framed.
  destruct cs as [|c cs]; cbn [head tail].
  - unfold ret, push. cbn [_clients requests responses queue].
    rewrite (list_insert_id _ r); [rewrite <- app_assoc; reflexivity|].
    rewrite HR. f_equal. destruct R; simpl in *. rewrite Hb. reflexivity.
  - unfold update_response, ret, push. cbn [_clients requests responses queue].
    rewrite (alter_insert _ _ r R HR), <- app_assoc. reflexivity.
Qed.

(** The pump step at the end of the stream: the body is closed, the end
    events are pushed, and the Response is done. *)
Lemma stream_end (r : Ref) (R : Response.t) (d : option string)
    (cs : list string) (k : nat) (s : State) :
  responses s !! r = Some R ->
  Response.body R = gen cs k ->
  nonempty d = false ->
  stream r d s =
    (set_response r
       (Response.with_done true (Response.with_body (gen [] (S k)) R))
       (queue s ++ closing_events (Response.chunked R) R) s,
     Ok tt).
Proof.
  intros HR Hb Hd. unfold stream, bind, get_response. rewrite HR.
  cbn [from_option_exn]. rewrite Hd, Hb. cbn [truthy gen when].
  unfold body_close, bind, get_response. rewrite HR.
  cbn [from_option_exn]. rewrite Hb. unfold gen. cbn [closes].
  unfold closing_events, set_response, when, push, ret, update_response.
  destruct (Response.chunked R), (Response.close R);
    cbn [_clients requests responses queue app];
    rewrite list_alter_alter_eq, (alter_insert _ _ r R HR),
      <- ?app_assoc, ?app_nil_r; reflexivity.
Qed.

End Delivery.

Section Pump.
Context `{Env}.

(** [response] on a streaming Response: the header block is written, the
    first element is pulled, and a pump step is scheduled. *)
Lemma response_streaming (r : Ref) (R : Response.t) (cs : list string)
    (k : nat) (s : State) :
  responses s !! r = Some R ->
  Response.stream R = true ->
  Response.body R = gen cs k ->
  response r s =
    (set_response r (Response.with_body (gen (tail cs) k) R)
       (queue s ++ (events.Write (Response.sock R) <$> output R)
        ++ [events.Stream r (head cs)]) s,
     Ok tt).
Proof.
  intros HR Hs Hb. unfold response, bind, get_response. rewrite HR.
  cbn [from_option_exn]. rewrite push_writes_eq, Hs, Hb.
  cbn [truthy gen andb].
  unfold body_next, bind, get_response, set_queue. cbn [responses].
  rewrite HR. cbn [from_option_exn]. rewrite Hb. unfold gen.
  cbn [pending closes]. unfold set_response.
  destruct cs as [|c cs]; cbn [head tail].
  - unfold ret, push. cbn [_clients requests responses queue].
    rewrite (list_insert_id _ r); [rewrite <- app_assoc; reflexivity|].
    rewrite HR. f_equal. destruct R; simpl in *. rewrite Hb. reflexivity.
  - unfold update_response, ret, push. cbn [_clients requests responses queue].
    rewrite (alter_insert _ _ r R HR), <- app_assoc. reflexivity.
Qed.

Lemma chunk_trace_body (r : Ref) (R : Response.t) (v : Value)
    (cs : list string) :
  chunk_trace r (Response.with_body v R) cs = chunk_trace r R cs.
Proof. induction cs as [|c cs IH]; simpl; [|rewrite IH]; reflexivity. Qed.

(** Pumping the non-empty elements [cs] of a body that goes on with [tl]:
    each one is delivered, framed and written before the next, and the
    element after them is scheduled last. *)
Lemma pump_elements (r : Ref) (k : nat) (tl cs : list string) :
  forall (s : State) (R : Response.t),
    Forall (fun c => c <> "") cs ->
    responses s !! r = Some R ->
    Response.body R = gen (tail (cs ++ tl)) k ->
    Response.done R = false ->
    queue s = [events.Stream r (head (cs ++ tl))] ->
    run (length (chunk_trace r R cs)) s =
      (set_response r (Response.with_body (gen (tail tl) k) R)
         [events.Stream r (head tl)] s,
       chunk_trace r R cs, Ok tt).
Proof.
  induction cs as [|c cs IH]; intros s R Hall HR Hb Hd Hq.
  - simpl in *. unfold set_response. rewrite (list_insert_id _ r).
    + rewrite <- Hq. destruct s; reflexivity.
    + rewrite HR. f_equal. destruct R; simpl in *. rewrite Hb. reflexivity.
  - inversion Hall as [|? ? Hc Hcs]; subst.
    cbn [head tail app] in *. cbn [chunk_trace length].
    pose proof (lookup_lt_Some _ _ _ HR) as Hlt.
    erewrite run_handler;
      [|exact Hq
       |cbn [deliver]; apply (stream_element r R c (cs ++ tl) k);
        [exact HR|exact Hb|exact Hd|exact Hc]].
    erewrite run_handler; [|reflexivity|reflexivity].
    rewrite <- (chunk_trace_body r R (gen (tail (cs ++ tl)) k) cs).
    rewrite (IH _ (Response.with_body (gen (tail (cs ++ tl)) k) R) Hcs);
      [| cbn [set_queue set_response responses];
         apply list_lookup_insert_eq; exact Hlt
       | reflexivity | exact Hd | reflexivity].
    unfold set_response, set_queue. cbn [_clients requests responses queue].
    rewrite list_insert_insert_eq, chunk_trace_body. reflexivity.
Qed.

Lemma writes_app (a b : list Event) : writes (a ++ b) = writes a ++ writes b.
Proof. apply omap_app. Qed.

Lemma writes_Write (sock : Sock) (l : list string) :
  writes (events.Write sock <$> l) = l.
Proof.
  induction l as [|d l IH]; [reflexivity|].
  change (writes (events.Write sock <$> d :: l))
    with (d :: writes (events.Write sock <$> l)).
  rewrite IH. reflexivity.
Qed.

End Pump.

Section Streaming.
Context `{Env}.

Lemma closing_events_external (b : bool) (R : Response.t) :
  forallb external (closing_events b R) = true.
Proof. unfold closing_events. destruct b, (Response.close R); reflexivity. Qed.

Lemma writes_external (sock : Sock) (l : list string) :
  forallb external (events.Write sock <$> l) = true.
Proof. induction l as [|d l IH]; [reflexivity|]. exact IH. Qed.

(** A streaming Response whose body yields the non-empty elements [cs]
    and then ends, by exhaustion ([tl] empty) or with an empty element
    ([tl] starting with one), from the delivery of its Response event to
    the end. *)
Lemma stream_whole (r : Ref) (R : Response.t) (cs tl : list string) (s : State) :
  Forall (fun c => c <> "") cs ->
  nonempty (head tl) = false ->
  responses s !! r = Some R ->
  Response.stream R = true ->
  Response.body R = gen (cs ++ tl) 0 ->
  Response.done R = false ->
  queue s = [events.Response r] ->
  let first := events.Response r :: (events.Write (Response.sock R) <$> output R) in
  let mid := chunk_trace r R cs in
  let last := events.Stream r (head tl) :: closing_events (Response.chunked R) R in
  run (length (first ++ mid)) s
    = (set_response r (Response.with_body (gen (tail tl) 0) R)
         [events.Stream r (head tl)] s,
       first ++ mid, Ok tt) /\
  forall n,
    run (length (first ++ mid) + (length last + n)) s
      = (set_response r
           (Response.with_done true (Response.with_body (gen [] 1) R)) [] s,
         first ++ mid ++ last, Ok tt).
Proof.
  intros Hall Htl HR Hs Hb Hd Hq first mid last.
  pose proof (lookup_lt_Some _ _ _ HR) as Hlt.
  assert (Hfirst :
    run (length (first ++ mid)) s
      = (set_response r (Response.with_body (gen (tail tl) 0) R)
           [events.Stream r (head tl)] s, first ++ mid, Ok tt)).
  { subst first. cbn [app length].
    erewrite run_handler;
      [|exact Hq
       |cbn [deliver]; apply (response_streaming r R (cs ++ tl) 0);
        [|exact Hs|exact Hb]; exact HR].
    cbn [set_queue queue app]. rewrite length_app.
    erewrite (run_external (events.Write (Response.sock R) <$> output R)
                (length mid) _ [events.Stream r (head (cs ++ tl))]);
      [|apply writes_external|reflexivity].
    subst mid. rewrite <- (chunk_trace_body r R (gen (tail (cs ++ tl)) 0) cs).
    rewrite (pump_elements r 0 tl cs _
               (Response.with_body (gen (tail (cs ++ tl)) 0) R) Hall);
      [| cbn [set_queue set_response responses];
         apply list_lookup_insert_eq; exact Hlt
       | reflexivity | exact Hd | reflexivity].
    unfold set_response, set_queue. cbn [_clients requests responses queue].
    rewrite list_insert_insert_eq, chunk_trace_body. reflexivity. }
  split; [exact Hfirst|]. intros n.
  rewrite run_app, Hfirst. subst last. cbn [length Nat.add].
  erewrite run_handler;
    [|reflexivity
     |cbn [deliver];
      apply (stream_end r (Response.with_body (gen (tail tl) 0) R) (head tl)
               (tail tl) 0);
      [cbn [set_queue set_response responses];
       apply list_lookup_insert_eq; exact Hlt
      |reflexivity|exact Htl]].
  cbn [set_queue set_response queue app _clients requests responses
       Response.chunked Response.with_body].
  change (closing_events (Response.chunked R)
            (Response.with_body (gen (tail tl) 0) R))
    with (closing_events (Response.chunked R) R).
  erewrite (run_external (closing_events (Response.chunked R) R) n _ []);
    [|apply closing_events_external|cbn [queue]; rewrite app_nil_r; reflexivity].
  rewrite run_empty by reflexivity.
  unfold set_queue, set_response. cbn [_clients requests responses queue].
  rewrite list_insert_insert_eq, app_nil_r, <- app_assoc. reflexivity.
Qed.

(** C6. A chunked streaming Response whose body yields "abc", then "de",
    then ends (the source is exhausted, or it yields an empty element):
    after the header block, the pump writes exactly the frames
    3 CRLF abc CRLF, 2 CRLF de CRLF and 0 CRLF CRLF, in this order. Until
    the end-of-stream step the body has not been closed and the Response
    is not done; that step closes the body, once, writes the terminal
    chunk and sets [done]; with enough fuel the run ends there, the queue
    empty. *)
Theorem chunked_stream_on_the_wire (r : Ref) (R : Response.t)
    (tl : list string) (s : State) :
  responses s !! r = Some R ->
  Response.chunked R = true ->
  Response.stream R = true ->
  Response.body R = gen ("abc" :: "de" :: tl) 0 ->
  nonempty (head tl) = false ->
  Response.done R = false ->
  queue s = [events.Response r] ->
  let sock := Response.sock R in
  let first := events.Response r :: (events.Write sock <$> output R) in
  let mid :=
    [events.Stream r (Some "abc");
     events.Write sock ("3" +:+ CRLF +:+ "abc" +:+ CRLF);
     events.Stream r (Some "de");
     events.Write sock ("2" +:+ CRLF +:+ "de" +:+ CRLF)] in
  let last :=
    events.Stream r (head tl) :: events.Write sock ("0" +:+ CRLF +:+ CRLF)
      :: (if Response.close R then [events.Close sock] else []) in
  exists s_mid s_end,
    run (length (first ++ mid)) s = (s_mid, first ++ mid, Ok tt) /\
    queue s_mid = [events.Stream r (head tl)] /\
    responses s_mid !! r = Some (Response.with_body (gen (tail tl) 0) R) /\
    (forall n,
        run (length (first ++ mid) + (length last + n)) s
          = (s_end, first ++ mid ++ last, Ok tt)) /\
    queue s_end = [] /\
    responses s_end !! r
      = Some (Response.with_done true (Response.with_body (gen [] 1) R)) /\
    writes (mid ++ last)
      = ["3" +:+ CRLF +:+ "abc" +:+ CRLF; "2" +:+ CRLF +:+ "de" +:+ CRLF;
         "0" +:+ CRLF +:+ CRLF] /\
    writes (first ++ mid ++ last) = output R ++ writes (mid ++ last).
Proof.
  intros HR Hc Hs Hb Htl Hd Hq sock first mid last.
  pose proof (lookup_lt_Some _ _ _ HR) as Hlt.
  destruct (stream_whole r R ["abc"; "de"] tl s) as [Hmid Hend];
    [repeat constructor; discriminate|exact Htl|exact HR|exact Hs|exact Hb
    |exact Hd|exact Hq|].
  cbn [chunk_trace] in Hmid, Hend. unfold framed, closing_events in Hmid, Hend.
  rewrite Hc in Hmid, Hend.
  do 2 eexists. split; [exact Hmid|]. split; [reflexivity|].
  split; [cbn [set_response responses]; apply list_lookup_insert_eq, Hlt|].
  split; [exact Hend|]. split; [reflexivity|].
  split; [cbn [set_response responses]; apply list_lookup_insert_eq, Hlt|].
  split.
  - subst mid last. destruct (Response.close R); reflexivity.
  - subst first. rewrite (writes_app (_ :: _)).
    change (writes (events.Response r :: (events.Write sock <$> output R)))
      with (writes (events.Write sock <$> output R)).
    rewrite writes_Write. reflexivity.
Qed.

End Streaming.

(** ** Assembling a request with a declared Content-Length *)

Section ContentLength.
Context `{Env}.



Lemma accepted_assembling (conn : Sock) (method : string) (u : UrlParts)
    (ver : list Z) (p : string) (hdrs : Headers.t) (f0 : string) (s : State) :
  assembling (accepted conn method u ver p hdrs f0 s) conn
    (length (requests s)) (length (responses s))
    (Request.with_headers hdrs (new_Request conn method u ver)) f0.
Proof.
  unfold assembling, accepted. cbn [_clients requests responses].
  split; [apply lookup_insert_eq|]. split.
  - eexists. split; [apply lookup_new|]. reflexivity.
  - apply lookup_new.
Qed.


End ContentLength.

(** ** Expect: 100-continue *)

Section Continue.
Context `{Env}.


(** The interim reply: status 100 with its reason phrase, no originating
    Request, nothing to stream, no close. *)
Lemma simple_response_100 (conn : Sock) :
  simple_response conn 100 ""
    = Response.with_status ("100 " +:+ (reason 100).1)
        (Response.with_body (VStr (reason 100).1)
           (Response.new conn None default_status default_protocol)).
Proof. reflexivity. Qed.

(** Delivering the Response event of a Response that is not streaming
    writes its header block, the end events, and marks it done; nothing else
    is pending afterwards. *)
Lemma run_fixed (r : Ref) (R : Response.t) (s : State) (n : nat) :
  responses s !! r = Some R ->
  Response.stream R = false ->
  queue s = [events.Response r] ->
  let out := (events.Write (Response.sock R) <$> output R)
             ++ closing_events (Response.chunked R) R in
  run (S (length out + n)) s
    = ({| _clients := _clients s; requests := requests s;
          responses := alter (Response.with_done true) r (responses s);
          queue := [] |},
       events.Response r :: out, Ok tt).
Proof.
  intros HR Hs Hq out.
  erewrite run_handler;
    [|exact Hq|cbn [deliver]; apply (response_fixed r R); [exact HR|]].
  2:{ rewrite Hs. reflexivity. }
  rewrite Hs, andb_true_r. cbn [set_queue queue app]. fold out.
  erewrite (run_external out n _ []);
    [|subst out; rewrite forallb_app, writes_external, closing_events_external;
      reflexivity
     |cbn [queue]; rewrite app_nil_r; reflexivity].
  rewrite run_empty by reflexivity. rewrite app_nil_r. reflexivity.
Qed.



End Continue.

(** ** Standalone replies and the connection table *)

Section Standalone.
Context `{Env}.

(** A delivery to a pair in flight never evicts it, and its bytes are in
    the body afterwards, whatever else happens in that delivery. *)
Lemma read_live_keeps (conn : Sock) (data : string) (s : State) (rq rs : Ref)
    (R : Response.t) (Q : Request.t) :
  _clients s !! conn = Some (rq, rs) ->
  responses s !! rs = Some R -> Response.done R = false ->
  requests s !! rq = Some Q ->
  exists s' res,
    read conn data s = (s', res) /\
    _clients s' !! conn = Some (rq, rs) /\
    (fun Q' => StringIO.buf (Request.body Q')) <$> requests s' !! rq
      = Some (StringIO.buf (StringIO.write data (Request.body Q))).
Proof.
  intros Hc HR Hd HQ. rewrite (read_live conn data s rq rs R Q Hc HR Hd HQ).
  destruct (Request.headers Q) as [h|].
  - destruct (content_length (Some h)) as [L|e].
    + match goal with |- context [if ?c then _ else _] => destruct c end;
        do 2 eexists; (split; [reflexivity|]); (split; [exact Hc|]);
        cbn [completed appended requests];
        rewrite ?list_lookup_alter_eq, HQ; reflexivity.
    + do 2 eexists. split; [reflexivity|]. split; [exact Hc|].
      cbn [appended requests]. rewrite list_lookup_alter_eq, HQ. reflexivity.
  - do 2 eexists. split; [reflexivity|]. split; [exact Hc|].
    cbn [appended requests]. rewrite list_lookup_alter_eq, HQ. reflexivity.
Qed.

(** C10. [simple] builds a new Response with no originating Request and
    pushes its Response event; it does not depend on the connection table
    and leaves it, every Request and every existing Response as they
    were. Emitting the reply marks only the new Response done. So a pair
    in flight keeps [done = false], and the next delivery on its
    connection is written to the pending body instead of evicting it. *)
Theorem simple_leaves_connection_table (sock : Sock) (code : Z)
    (message : string) (s : State) (conn : Sock) (rq rs : Ref)
    (R : Response.t) (Q : Request.t) (data : string) :
  _clients s !! conn = Some (rq, rs) ->
  responses s !! rs = Some R -> Response.done R = false ->
  requests s !! rq = Some Q ->
  let new := length (responses s) in
  exists s1 s2 s3 res,
    simple sock code message s = (s1, Ok tt) /\
    responses s !! new = None /\
    Response.request <$> responses s1 !! new = Some None /\
    queue s1 = queue s ++ [events.Response new] /\
    _clients s1 = _clients s /\ requests s1 = requests s /\
    keeps_responses s s1 /\
    (forall c, simple sock code message (set_clients c s)
               = (set_clients c s1, Ok tt)) /\
    response new s1 = (s2, Ok tt) /\
    _clients s2 = _clients s /\ requests s2 = requests s /\
    keeps_responses s s2 /\
    responses s2 !! rs = Some R /\
    read conn data s2 = (s3, res) /\
    _clients s3 !! conn = Some (rq, rs) /\
    (fun Q' => StringIO.buf (Request.body Q')) <$> requests s3 !! rq
      = Some (StringIO.buf (StringIO.write data (Request.body Q))).
Proof.
  intros Hc HR Hd HQ new.
  set (Rn := simple_response sock code message).
  destruct (simple_response_fresh sock code message)
    as (Hreq & _ & _ & Hstream & _). fold Rn in Hreq, Hstream.
  set (s1 := {| _clients := _clients s; requests := requests s;
                responses := responses s ++ [Rn];
                queue := queue s ++ [events.Response new] |}).
  assert (HRn : responses s1 !! new = Some Rn) by apply lookup_new.
  assert (Hfix : Response.stream Rn && truthy (Response.body Rn) = false)
    by (rewrite Hstream; reflexivity).
  pose proof (response_fixed new Rn s1 HRn Hfix) as Hresp.
  set (s2 := {| _clients := _clients s1; requests := requests s1;
                responses := alter (Response.with_done true) new (responses s1);
                queue := queue s1
                         ++ (events.Write (Response.sock Rn) <$> output Rn)
                         ++ closing_events
                              (Response.chunked Rn && negb (Response.stream Rn)) Rn |})
    in Hresp.
  assert (Hk2 : keeps_responses s s2).
  { intros r R' HR'. subst s2 s1. cbn [responses].
    apply lookup_alter_old, HR'. }
  destruct (read_live_keeps conn data s2 rq rs R Q Hc (Hk2 _ _ HR) Hd HQ)
    as (s3 & res & Hread & Hc3 & Hbuf).
  exists s1, s2, s3, res.
  split; [apply simple_eq|]. split; [apply lookup_fresh|].
  split; [rewrite HRn; cbn; rewrite Hreq; reflexivity|].
  split; [reflexivity|]. split; [reflexivity|]. split; [reflexivity|].
  split; [apply (keeps_responses_app _ _ [Rn]); reflexivity|].
  split; [intros c; rewrite simple_eq; reflexivity|].
  split; [exact Hresp|]. split; [reflexivity|]. split; [reflexivity|].
  split; [exact Hk2|]. split; [apply Hk2, HR|].
  split; [exact Hread|]. split; [exact Hc3|exact Hbuf].
Qed.

End Standalone.

(** ** Input that cannot be parsed *)

Section Malformed.
Context `{Env}.





End Malformed.

(** ** Persistent connections *)

Section Persistence.
Context `{Env}.

(** Completion closes the connection as [closing] says, that is, by the
    version the client sent. *)
Lemma close_after_completion (rq rs : Ref) (Q : Request.t) (h : Headers.t)
    (R : Response.t) (s : State) :
  requests s !! rq = Some Q ->
  Request.headers Q = Some h ->
  responses s !! rs = Some R ->
  Response.close <$> responses (complete rq rs s).1 !! rs
    = Some (Response.close R || closing (Request.protocol Q) h).
Proof.
  intros HQ Hh HR. rewrite (complete_eq rq rs Q h s HQ Hh).
  cbn [fst completed responses].
  destruct (closing (Request.protocol Q) h).
  - rewrite list_lookup_alter_eq, HR. cbn. rewrite orb_true_r. reflexivity.
  - rewrite HR. cbn. rewrite orb_false_r. reflexivity.
Qed.

End Persistence.

(** C4, where the code departs from it. The branch of line 183 is taken on
    the version the client sent, not on the negotiated one. A client
    speaking HTTP/1.1 to a server speaking HTTP/1.0, with no Connection
    header: the response protocol is HTTP/1.0, yet [close] stays false. A
    client announcing HTTP/1.2 to a server speaking HTTP/1.1, with no
    Connection header: the response protocol is HTTP/1.1, yet [close] is
    set. *)
Theorem persistence_decided_by_client_version :
  (queue (Sample.after Sample.http10 (Sample.get "/" "HTTP/1.1"))
     = [events.Request 0 0] /\
   Response.protocol
     <$> responses (Sample.after Sample.http10 (Sample.get "/" "HTTP/1.1")) !! 0
     = Some "HTTP/1.0" /\
   Request.headers
     <$> requests (Sample.after Sample.http10 (Sample.get "/" "HTTP/1.1")) !! 0
     = Some (Some []) /\
   Response.close
     <$> responses (Sample.after Sample.http10 (Sample.get "/" "HTTP/1.1")) !! 0
     = Some false) /\
  (queue (Sample.after Sample.http11 (Sample.get "/" "HTTP/1.2"))
     = [events.Request 0 0] /\
   Response.protocol
     <$> responses (Sample.after Sample.http11 (Sample.get "/" "HTTP/1.2")) !! 0
     = Some "HTTP/1.1" /\
   Request.headers
     <$> requests (Sample.after Sample.http11 (Sample.get "/" "HTTP/1.2")) !! 0
     = Some (Some []) /\
   Response.close
     <$> responses (Sample.after Sample.http11 (Sample.get "/" "HTTP/1.2")) !! 0
     = Some true).
Proof. vm_compute. repeat split. Qed.

(** ** Where the code departs from the specification, on actual bytes *)





(** C8 fails when the hook returns a Response value: nothing is emitted. *)
Lemma hook_response_not_emitted :
  @_handleError Sample.hooked Sample.not_found Sample.two_responses
    = (Sample.two_responses, Ok tt) /\
  @send_httperror Sample.hooked Sample.not_found Sample.two_responses
    = (Sample.two_responses, Ok (VResponse 1)) /\
  queue Sample.two_responses = [].
Proof. repeat split. Qed.

(** ** The theorems on actual bytes *)

(** The Expect token is compared as it stands: with "100-Continue" no
    interim reply is sent and the request, complete, is dispatched. *)
Example expect_is_case_sensitive :
  queue (Sample.after Sample.http11
           (Server.lines ["POST /u HTTP/1.1"; "Content-Length: 0";
                          "Expect: 100-Continue"; ""]))
    = [events.Request 0 0].
Proof. vm_compute. reflexivity. Qed.





Lemma chunked_stream_witness :
  exists s_end,
    (forall n, exists tr,
        @run Sample.http11 (9 + n) Sample.streaming_state = (s_end, tr, Ok tt) /\
        writes tr
          = @output Sample.http11 Sample.streaming
            ++ ["3" +:+ CRLF +:+ "abc" +:+ CRLF;
                "2" +:+ CRLF +:+ "de" +:+ CRLF;
                "0" +:+ CRLF +:+ CRLF]) /\
    queue s_end = [] /\
    Response.body <$> responses s_end !! 0 = Some (gen [] 1) /\
    Response.done <$> responses s_end !! 0 = Some true.
Proof.
  destruct (@chunked_stream_on_the_wire Sample.http11 0 Sample.streaming []
              Sample.streaming_state eq_refl eq_refl eq_refl eq_refl eq_refl
              eq_refl eq_refl)
    as (s_mid & s_end & _ & _ & _ & Hend & Hq & HR & Hw & Hall).
  exists s_end. split; [|split; [exact Hq|rewrite HR; split; reflexivity]].
  intros n. eexists. split; [exact (Hend n)|].
  rewrite Hall, Hw. reflexivity.
Defined.


Lemma boolean_result_witness :
  exists s',
    @request_success_or_filtered Sample.http11 0 0 (VBool true)
      Sample.two_responses = (s', Ok tt) /\
    Request.handled <$> requests s' !! 0 = Some true /\
    queue s' = [] /\
    responses s' = responses Sample.two_responses.
Proof.
  destruct (@boolean_result_marks_handled_only Sample.http11 0 0 true
              Sample.two_responses eq_refl)
    as (s' & Hr & _ & Hh & _ & Hq & HR & _).
  exists s'. split; [exact Hr|]. split; [exact Hh|]. split; [exact Hq|exact HR].
Defined.

Lemma handleError_witness :
  exists s',
    @_handleError Sample.http11 Sample.not_found Sample.two_responses
      = (s', Ok tt) /\
    queue s' = [events.Response 0] /\
    responses s' = responses Sample.two_responses.
Proof.
  destruct (@handleError_by_hook_result Sample.http11 Sample.not_found
              Sample.two_responses) as (_ & _ & Hdefault).
  destruct (Hdefault eq_refl) as (s' & Hr & Hq & HR & _).
  exists s'. split; [exact Hr|]. split; [exact Hq|exact HR].
Defined.

Lemma simple_witness :
  exists s1 s2 s3,
    @simple Sample.http11 Sample.conn 100 ""
      (Sample.after Sample.http11 Sample.upload) = (s1, Ok tt) /\
    _clients s1 = _clients (Sample.after Sample.http11 Sample.upload) /\
    @response Sample.http11 1 s1 = (s2, Ok tt) /\
    Response.done <$> responses s2 !! 0 = Some false /\
    (@read Sample.http11 Sample.conn "abc" s2).1 = s3 /\
    _clients s3 !! Sample.conn = Some (0, 0) /\
    (fun Q => StringIO.buf (Request.body Q)) <$> requests s3 !! 0 = Some "abc".
Proof.
  destruct (@simple_leaves_connection_table Sample.http11 Sample.conn 100 ""
              (Sample.after Sample.http11 Sample.upload) Sample.conn 0 0
              (@new_Response Sample.http11 Sample.conn 0)
              (Request.with_headers [("Content-Length", "5")]
                 (Request.new Sample.conn "POST" "" "/u" [1; 1]%Z ""))
              "abc")
    as (s1 & s2 & s3 & res & Hs & _ & _ & _ & Hc & _ & _ & _ & Hresp & _ & _
        & _ & HR & Hread & Hc3 & Hbuf).
  - vm_compute. reflexivity.
  - vm_compute. reflexivity.
  - reflexivity.
  - vm_compute. reflexivity.
  - exists s1, s2, s3. split; [exact Hs|]. split; [exact Hc|].
    split; [exact Hresp|]. split; [rewrite HR; reflexivity|].
    split; [rewrite Hread; reflexivity|]. split; [exact Hc3|exact Hbuf].
Defined.

(** ** Disconnect and the dispatch outcomes *)

Section Outcomes.
Context `{Env}.

Lemma evict_absent (conn : Sock) (s : State) :
  _clients s !! conn = None -> evict conn s = s.
Proof.
  intros Hc. unfold evict, set_clients. rewrite delete_id by exact Hc.
  destruct s; reflexivity.
Qed.

(** X1. [disconnect] removes the entry of its connection and nothing else:
    the other entries, the objects and the queue stay. Whatever body was
    pending, the next delivery on that connection starts a new request; a
    second disconnect changes nothing. *)
Theorem disconnect_forgets_connection (conn : Sock) (s : State) :
  exists s',
    disconnect conn s = (s', Ok tt) /\
    _clients s' !! conn = None /\
    (forall c, c <> conn -> _clients s' !! c = _clients s !! c) /\
    requests s' = requests s /\ responses s' = responses s /\
    queue s' = queue s /\
    (forall data, read conn data s' = read_new conn data s') /\
    disconnect conn s' = (s', Ok tt).
Proof.
  unfold disconnect, bind, lookup_client.
  destruct (_clients s !! conn) as [p|] eqn:Hc.
  - eexists. split; [reflexivity|]. cbn [_clients requests responses queue].
    split; [apply lookup_delete_eq|].
    split; [intros c Hne; apply lookup_delete_ne; congruence|].
    do 3 (split; [reflexivity|]). split.
    + intros data. rewrite read_idle.
      * rewrite evict_absent; [reflexivity|]. apply lookup_delete_eq.
      * unfold idle. cbn [_clients]. rewrite lookup_delete_eq. exact I.
    + cbn [_clients]. rewrite lookup_delete_eq. reflexivity.
  - exists s. split; [reflexivity|]. split; [exact Hc|].
    split; [reflexivity|]. do 3 (split; [reflexivity|]). split.
    + intros data. rewrite read_idle.
      * rewrite evict_absent by exact Hc. reflexivity.
      * unfold idle. rewrite Hc. exact I.
    + rewrite Hc. reflexivity.
Qed.

(** X2. A handler that raised: the error is built with status 500, the
    message "Request Failed" and the cause, which pre-populates the
    Response of the pair; with the default error handler exactly that
    Response is emitted, once. *)
Theorem failure_emits_500 (rq rs : Ref) (cause : string) (s : State) :
  send_httperror = httperror ->
  exists s',
    request_failure rq rs cause s = (s', Ok tt) /\
    queue s' = queue s ++ [events.Response rs] /\
    responses s'
      = alter (HTTPError_init 500 (Some "Request Failed")) rs (responses s) /\
    requests s' = requests s /\ _clients s' = _clients s.
Proof.
  intros Hhook. unfold request_failure, HTTPError, _handleError, bind.
  rewrite Hhook. eexists. split; [reflexivity|]. repeat split.
Qed.

(** X3. At completion, a request that no handler marked handled, or for
    which no handler matched, is answered 404: the Response of the pair is
    pre-populated for 404 and, with the default error handler, emitted
    once. A handled request with a matching handler is left alone. *)
Theorem completed_404_when_unhandled (rq rs : Ref) (handler : option string)
    (Q : Request.t) (s : State) :
  send_httperror = httperror ->
  requests s !! rq = Some Q ->
  let missed :=
    negb (Request.handled Q)
    || match handler with None => true | Some _ => false end in
  exists s',
    request_completed rq rs handler s = (s', Ok tt) /\
    queue s' = queue s ++ (if missed then [events.Response rs] else []) /\
    responses s'
      = (if missed then alter (HTTPError_init 404 None) rs (responses s)
         else responses s) /\
    requests s' = requests s /\ _clients s' = _clients s.
Proof.
  intros Hhook HQ missed. subst missed.
  unfold request_completed, bind, get_request. rewrite HQ.
  cbn [from_option_exn].
  destruct (Request.handled Q), handler as [h|]; cbn [negb orb];
    try (rewrite bool_decide_eq_true_2 by (eexists; reflexivity));
    try (rewrite bool_decide_eq_false_2 by (intros [x Hx]; discriminate));
    cbn [negb orb];
    unfold NotFound, HTTPError, _handleError, bind; rewrite ?Hhook;
    eexists; (split; [reflexivity|]);
    cbn [_clients requests responses queue]; rewrite ?app_nil_r;
    repeat split.
Qed.

(** The state after a truthy result: the Request is handled. *)
Lemma success_marks_handled (rq rs : Ref) (retval : Value) (Q : Request.t)
    (s : State) :
  send_httperror = httperror ->
  truthy retval = true ->
  requests s !! rq = Some Q ->
  requests (request_success_or_filtered rq rs retval s).1 !! rq
    = Some (Request.with_handled true Q).
Proof.
  intros Hhook Ht HQ. unfold request_success_or_filtered. rewrite Ht.
  destruct retval; unfold bind, update_request, update_response, push, ret,
    _handleError; rewrite ?Hhook;
    cbn [fst requests]; try (rewrite list_lookup_alter_eq, HQ; reflexivity).
  unfold httperror, bind, push, ret. cbn [truthy is_basestring fst requests].
  rewrite list_lookup_alter_eq, HQ. reflexivity.
Qed.

(** X4. Once a handler has returned a non-empty value, of any kind, the
    completion of the request with a matching handler emits no 404 and
    changes nothing. *)
Theorem no_404_after_result (rq rs : Ref) (retval : Value) (h : string)
    (Q : Request.t) (s : State) :
  send_httperror = httperror ->
  truthy retval = true ->
  requests s !! rq = Some Q ->
  request_completed rq rs (Some h)
    (request_success_or_filtered rq rs retval s).1
    = ((request_success_or_filtered rq rs retval s).1, Ok tt).
Proof.
  intros Hhook Ht HQ.
  pose proof (success_marks_handled rq rs retval Q s Hhook Ht HQ) as Hh.
  unfold request_completed, bind, get_request. rewrite Hh.
  cbn [from_option_exn Request.handled Request.with_handled negb orb].
  rewrite bool_decide_eq_true_2 by (eexists; reflexivity). reflexivity.
Qed.

(** X5. An empty result (None, False, 0 or the empty string) is no result:
    the success handler changes nothing, the request stays unhandled, and
    its completion answers 404. *)
Theorem empty_result_ends_in_404 (rq rs : Ref) (retval : Value)
    (handler : option string) (Q : Request.t) (s : State) :
  send_httperror = httperror ->
  truthy retval = false ->
  requests s !! rq = Some Q ->
  Request.handled Q = false ->
  exists s',
    request_success_or_filtered rq rs retval s = (s, Ok tt) /\
    request_completed rq rs handler s = (s', Ok tt) /\
    queue s' = queue s ++ [events.Response rs] /\
    responses s' = alter (HTTPError_init 404 None) rs (responses s) /\
    requests s' !! rq = Some Q.
Proof.
  intros Hhook Ht HQ Hh.
  unfold request_success_or_filtered. rewrite Ht.
  unfold request_completed, bind, get_request. rewrite HQ.
  cbn [from_option_exn]. rewrite Hh. cbn [negb orb].
  unfold NotFound, HTTPError, _handleError, bind. rewrite Hhook.
  eexists. split; [reflexivity|]. split; [reflexivity|].
  cbn [_clients requests responses queue]. repeat split. exact HQ.
Qed.

End Outcomes.

(** ** From the handler's result to the wire *)

Section Results.
Context `{Env}.

(** X6. For a pair in the connection table whose Response is not flagged
    as streaming, nothing else being queued: a result that is text, or any
    other non-empty value that is not a boolean, an error or a Response,
    becomes the body of the Response of the pair, which is emitted: its
    header block is written, followed by the end events, and it is done.
    The next delivery on the connection therefore starts a new request. *)
Theorem result_becomes_body_and_is_emitted (conn : Sock) (rq rs : Ref)
    (R : Response.t) (retval : Value) (s : State) :
  _clients s !! conn = Some (rq, rs) ->
  responses s !! rs = Some R ->
  Response.stream R = false ->
  queue s = [] ->
  opaque_body retval = true ->
  let R' := Response.with_body retval R in
  let out := (events.Write (Response.sock R) <$> output R')
             ++ closing_events (Response.chunked R) R' in
  exists s1 s2,
    request_success_or_filtered rq rs retval s = (s1, Ok tt) /\
    queue s1 = [events.Response rs] /\
    requests s1 !! rq = Request.with_handled true <$> requests s !! rq /\
    (forall n, run (S (length out + n)) s1
               = (s2, events.Response rs :: out, Ok tt)) /\
    queue s2 = [] /\
    responses s2 !! rs = Some (Response.with_done true R') /\
    forall data, read conn data s2 = read_new conn data (evict conn s2).
Proof.
  intros Hc HR Hs Hq Hop R' out.
  unfold opaque_body in Hop. apply andb_true_iff in Hop as [Ht Hkind].
  set (s1 := {| _clients := _clients s;
                requests := alter (Request.with_handled true) rq (requests s);
                responses := alter (Response.with_body retval) rs (responses s);
                queue := queue s ++ [events.Response rs] |}).
  assert (Hrun1 : request_success_or_filtered rq rs retval s = (s1, Ok tt)).
  { unfold request_success_or_filtered. rewrite Ht.
    destruct retval; try discriminate Hkind; reflexivity. }
  assert (HR1 : responses s1 !! rs = Some R').
  { subst s1. cbn [responses]. rewrite list_lookup_alter_eq, HR. reflexivity. }
  assert (Hq1 : queue s1 = [events.Response rs]).
  { subst s1. cbn [queue]. rewrite Hq. reflexivity. }
  pose proof (fun n => run_fixed rs R' s1 n HR1 Hs Hq1) as Hrun.
  cbv zeta in Hrun.
  exists s1. eexists. split; [exact Hrun1|]. split; [exact Hq1|].
  split; [apply list_lookup_alter_eq|].
  split; [exact Hrun|]. split; [reflexivity|]. split.
  - cbn [responses]. rewrite list_lookup_alter_eq, HR1. reflexivity.
  - intros data. apply read_idle. unfold idle.
    cbn [_clients]. subst s1. cbn [_clients]. rewrite Hc.
    eexists. split.
    + cbn [responses]. rewrite list_lookup_alter_eq, list_lookup_alter_eq, HR.
      reflexivity.
    + reflexivity.
Qed.

(** X7. A result that is another Response supersedes the one of the pair:
    it is emitted and done, and the Response of the pair is not. The pair
    thus stays in flight, and the next delivery on the connection is
    written to the body of the request already answered. *)
Theorem superseding_response_leaves_pair_in_flight (conn : Sock)
    (rq rs r' : Ref) (Q : Request.t) (R R' : Response.t) (data : string)
    (s : State) :
  _clients s !! conn = Some (rq, rs) ->
  requests s !! rq = Some Q ->
  responses s !! rs = Some R ->
  Response.done R = false ->
  r' <> rs ->
  responses s !! r' = Some R' ->
  Response.stream R' = false ->
  queue s = [] ->
  let out := (events.Write (Response.sock R') <$> output R')
             ++ closing_events (Response.chunked R') R' in
  exists s1 s2 s3 res,
    request_success_or_filtered rq rs (VResponse r') s = (s1, Ok tt) /\
    queue s1 = [events.Response r'] /\
    (forall n, run (S (length out + n)) s1
               = (s2, events.Response r' :: out, Ok tt)) /\
    responses s2 !! r' = Some (Response.with_done true R') /\
    responses s2 !! rs = Some R /\
    read conn data s2 = (s3, res) /\
    _clients s3 !! conn = Some (rq, rs) /\
    (fun Q' => StringIO.buf (Request.body Q')) <$> requests s3 !! rq
      = Some (StringIO.buf (StringIO.write data (Request.body Q))).
Proof.
  intros Hc HQ HR Hd Hne HR' Hs Hq out.
  set (s1 := {| _clients := _clients s;
                requests := alter (Request.with_handled true) rq (requests s);
                responses := responses s;
                queue := queue s ++ [events.Response r'] |}).
  assert (Hq1 : queue s1 = [events.Response r']).
  { subst s1. cbn [queue]. rewrite Hq. reflexivity. }
  pose proof (fun n => run_fixed r' R' s1 n HR' Hs Hq1) as Hrun.
  cbv zeta in Hrun.
  set (s2 := {| _clients := _clients s1; requests := requests s1;
                responses := alter (Response.with_done true) r' (responses s1);
                queue := [] |}) in *.
  assert (HR2 : responses s2 !! rs = Some R).
  { subst s2 s1. cbn [responses]. rewrite list_lookup_alter_ne by exact Hne.
    exact HR. }
  destruct (read_live_keeps conn data s2 rq rs R
              (Request.with_handled true Q) Hc HR2 Hd)
    as (s3 & res & Hread & Hc3 & Hbuf).
  { subst s2 s1. cbn [requests]. rewrite list_lookup_alter_eq, HQ. reflexivity. }
  exists s1, s2, s3, res.
  split; [reflexivity|]. split; [exact Hq1|]. split; [exact Hrun|].
  split; [subst s2 s1; cbn [responses]; rewrite list_lookup_alter_eq, HR';
          reflexivity|].
  split; [exact HR2|]. split; [exact Hread|]. split; [exact Hc3|exact Hbuf].
Qed.

End Results.

(** ** Standalone replies: when the connection is closed *)

Section SimpleClose.
Context `{Env}.

(** The first three characters of a status line are those of its code,
    whatever the message: a shorter code is followed by the space. *)
Lemma status_prefix (code message : string) :
  String.eqb (Py.take 3 (code +:+ " " +:+ message)) "413"
    = String.eqb (Py.take 3 code) "413".
Proof.
  destruct code as [|a [|b [|c r]]].
  - reflexivity.
  - rewrite app_cons. cbn [Py.take String.eqb].
    destruct (Ascii.eqb a "4"); reflexivity.
  - rewrite !app_cons. cbn [Py.take String.eqb].
    destruct (Ascii.eqb a "4"); [|reflexivity].
    destruct (Ascii.eqb b "1"); reflexivity.
  - rewrite !app_cons. reflexivity.
Qed.

Lemma simple_response_close (sock : Sock) (code : Z) (message : string) :
  let R := simple_response sock code message in
  Response.close R = forces_close code /\
  Response.headers R
    = (if forces_close code then [("Connection", "close")] else []) /\
  Response.body R
    = VStr (if String.eqb message "" then (reason code).1 else message) /\
  Response.sock R = sock /\
  Response.stream R = false /\ Response.chunked R = false.
Proof.
  unfold simple_response, forces_close.
  cbn [Response.status Response.with_status Response.protocol
       Response.with_body Response.new].
  rewrite status_prefix.
  destruct (String.eqb (Py.take 3 (Py.str code)) "413"
            && String.eqb default_protocol "HTTP/1.1"); repeat split.
Qed.

(** X8. [simple] forces the connection to close exactly when the code
    reads 413 and a new Response speaks HTTP/1.1, whatever the message: the
    reply then carries the header Connection: close, and once its header
    block is written the close of the connection follows. Otherwise the
    reply has no such header and no close follows. Either way the body is
    the message, or the short reason phrase when there is none, and the
    reply is done after its emission. *)
Theorem simple_reply_closes_on_413 (sock : Sock) (code : Z)
    (message : string) (s : State) :
  queue s = [] ->
  let new := length (responses s) in
  let R := simple_response sock code message in
  let out := (events.Write sock <$> output R)
             ++ (if forces_close code then [events.Close sock] else []) in
  exists s1 s2,
    simple sock code message s = (s1, Ok tt) /\
    responses s1 !! new = Some R /\
    Response.close R = forces_close code /\
    Response.headers R
      = (if forces_close code then [("Connection", "close")] else []) /\
    Response.body R
      = VStr (if String.eqb message "" then (reason code).1 else message) /\
    (forall n, run (S (length out + n)) s1
               = (s2, events.Response new :: out, Ok tt)) /\
    queue s2 = [] /\
    responses s2 !! new = Some (Response.with_done true R).
Proof.
  intros Hq new R out.
  destruct (simple_response_close sock code message)
    as (Hclose & Hhead & Hbody & Hsock & Hstream & Hchunked).
  fold R in Hclose, Hhead, Hbody, Hsock, Hstream, Hchunked.
  set (s1 := {| _clients := _clients s; requests := requests s;
                responses := responses s ++ [R];
                queue := queue s ++ [events.Response new] |}).
  assert (HR1 : responses s1 !! new = Some R) by apply lookup_new.
  assert (Hq1 : queue s1 = [events.Response new]).
  { subst s1. cbn [queue]. rewrite Hq. reflexivity. }
  pose proof (fun n => run_fixed new R s1 n HR1 Hstream Hq1) as Hrun.
  cbv zeta in Hrun. unfold closing_events in Hrun.
  rewrite Hchunked, Hsock, Hclose in Hrun. cbn [app] in Hrun.
  exists s1. eexists. split; [apply simple_eq|]. split; [exact HR1|].
  split; [exact Hclose|]. split; [exact Hhead|]. split; [exact Hbody|].
  split; [exact Hrun|]. split; [reflexivity|].
  cbn [responses]. rewrite list_lookup_alter_eq, HR1. reflexivity.
Qed.

End SimpleClose.

(** ** The response protocol and the errors after registration *)

Section Negotiation.
Context `{Env}.

(** Of two versions with the same major, the lesser has the lesser minor. *)
Lemma min_tuple_minor (a m n : Z) :
  Py.min_tuple [a; m] [a; n] = [a; Z.min m n].
Proof.
  unfold Py.min_tuple. cbn [Py.lt_tuple]. rewrite Z.ltb_irrefl.
  destruct (Z.ltb_spec n m) as [Hlt|Hge].
  - rewrite Z.min_r by lia. reflexivity.
  - rewrite Z.min_l by lia. destruct (m <? n)%Z; reflexivity.
Qed.

(** A version with one component is less than any with two that starts
    alike. *)
Lemma min_tuple_short (a n : Z) : Py.min_tuple [a] [a; n] = [a].
Proof. unfold Py.min_tuple. cbn [Py.lt_tuple]. rewrite Z.ltb_irrefl. reflexivity. Qed.

Lemma read_new_format_error (conn : Sock) (data : string) (s : State)
    (method target proto rest : string) (u : UrlParts) (ver : list Z)
    (e : Exn) :
  parse_requestline data = Ok (method, target, proto, rest) ->
  urlparse target = Ok u ->
  parse_protocol proto = Ok ver ->
  url_frag u = "" ->
  head ver = Some server_protocol.1 ->
  format_protocol (Py.min_tuple ver server_tuple) = Raise e ->
  read_new conn data s = (registered conn method u ver s, Raise e).
Proof.
  intros Hline Hurl Hver Hfrag Hmajor Hfmt. start_read_new Hline Hurl Hver.
  rewrite Hfrag, Hmajor. cbn [negb String.eqb from_option_exn].
  rewrite Z.eqb_refl. cbn [negb]. rewrite Hfmt. reflexivity.
Qed.

Lemma read_new_headers_error (conn : Sock) (data : string) (s : State)
    (method target proto rest : string) (u : UrlParts) (ver : list Z)
    (p : string) (e : Exn) :
  parse_requestline data = Ok (method, target, proto, rest) ->
  urlparse target = Ok u ->
  parse_protocol proto = Ok ver ->
  url_frag u = "" ->
  head ver = Some server_protocol.1 ->
  format_protocol (Py.min_tuple ver server_tuple) = Ok p ->
  parseHeaders rest = Raise e ->
  read_new conn data s = (negotiated conn method u ver p s, Raise e).
Proof.
  intros Hline Hurl Hver Hfrag Hmajor Hfmt Hhdr.
  start_read_new Hline Hurl Hver.
  rewrite Hfrag, Hmajor. cbn [negb String.eqb from_option_exn].
  rewrite Z.eqb_refl. cbn [negb]. rewrite Hfmt, Hhdr.
  unfold update_response. cbn [_clients requests responses queue].
  rewrite alter_new. reflexivity.
Qed.

Lemma registered_assembling (conn : Sock) (method : string) (u : UrlParts)
    (ver : list Z) (s : State) :
  assembling (registered conn method u ver s) conn
    (length (requests s)) (length (responses s))
    (new_Request conn method u ver) "".
Proof.
  unfold assembling, registered. cbn [_clients requests responses].
  split; [apply lookup_insert_eq|]. split.
  - eexists. split; [apply lookup_new|]. reflexivity.
  - apply lookup_new.
Qed.


End Negotiation.

Section AfterRegistration.
Context `{Env}.

(** X9. For a request whose target parses without a fragment and whose
    version has the server's major and the minor [m], the protocol of the
    Response is the server's major with the lesser of [m] and the server's
    minor; it is set as soon as the version check has passed, whatever
    happens to the rest of the delivery. *)
Theorem response_protocol_is_lesser_version (conn : Sock) (data : string)
    (s : State) (method target proto rest : string) (u : UrlParts) (m : Z) :
  idle s conn ->
  parse_requestline data = Ok (method, target, proto, rest) ->
  urlparse target = Ok u ->
  parse_protocol proto = Ok [server_protocol.1; m] ->
  url_frag u = "" ->
  Response.protocol
    <$> responses (read conn data s).1 !! length (responses s)
    = Some ("HTTP/" +:+ Py.str server_protocol.1 +:+ "."
            +:+ Py.str (Z.min m server_protocol.2)).
Proof.
  intros Hidle Hline Hurl Hver Hfrag.
  set (p := "HTTP/" +:+ Py.str server_protocol.1 +:+ "."
            +:+ Py.str (Z.min m server_protocol.2)).
  assert (Hfmt : format_protocol
                   (Py.min_tuple [server_protocol.1; m] server_tuple) = Ok p).
  { unfold server_tuple. rewrite min_tuple_minor. reflexivity. }
  rewrite (read_idle conn data s Hidle).
  change (length (responses s)) with (length (responses (evict conn s))).
  generalize (evict conn s). clear s Hidle. intros s.
  destruct (parseHeaders rest) as [[hdrs f0]|e] eqn:Hhdr.
  - rewrite (read_new_accepted conn data s _ _ _ _ _ _ p hdrs f0
               Hline Hurl Hver Hfrag eq_refl Hfmt Hhdr).
    destruct (String.eqb (Headers.get hdrs "Expect" "") "100-continue").
    + rewrite simple_eq. cbn [fst responses accepted].
      rewrite lookup_app_l by (rewrite length_app; simpl; lia).
      rewrite lookup_new. reflexivity.
    + destruct (content_length (Some hdrs)) as [L|e];
        [|cbn [fst responses accepted]; rewrite lookup_new; reflexivity].
      destruct (Z.of_nat (Py.len f0) =? L)%Z;
        [|cbn [fst responses accepted]; rewrite lookup_new; reflexivity].
      erewrite (complete_eq _ _ _ hdrs) by (apply lookup_new || reflexivity).
      cbn [fst completed responses accepted].
      match goal with |- context [if ?c then _ else _] => destruct c end.
      * rewrite list_lookup_alter_eq, lookup_new. reflexivity.
      * rewrite lookup_new. reflexivity.
  - rewrite (read_new_headers_error conn data s _ _ _ _ _ _ p e
               Hline Hurl Hver Hfrag eq_refl Hfmt Hhdr).
    cbn [fst responses negotiated]. rewrite lookup_new. reflexivity.
Qed.

(** X10. A request line whose target parses without a fragment and whose
    version has a single component, equal to the server's major: the
    response protocol cannot be formatted and [read] raises TypeError. The
    pair is already in the table and nothing has been pushed. While the
    pair is in flight, every later delivery is written to its body and
    raises AttributeError at line 122, no headers having been stored, and
    pushes nothing. *)
Theorem one_component_version_raises (conn : Sock) (data : string)
    (s : State) (method target proto rest : string) (u : UrlParts) :
  idle s conn ->
  parse_requestline data = Ok (method, target, proto, rest) ->
  urlparse target = Ok u ->
  parse_protocol proto = Ok [server_protocol.1] ->
  url_frag u = "" ->
  let rq := length (requests s) in
  let rs := length (responses s) in
  let Q0 := new_Request conn method u [server_protocol.1] in
  exists s',
    read conn data s = (s', Raise TypeError) /\
    queue s' = queue s /\
    _clients s' !! conn = Some (rq, rs) /\
    assembling s' conn rq rs Q0 "" /\
    forall s1 B d,
      assembling s1 conn rq rs Q0 B ->
      exists s2,
        read conn d s1 = (s2, Raise AttributeError) /\
        queue s2 = queue s1 /\
        assembling s2 conn rq rs Q0 (B +:+ d).
Proof.
  intros Hidle Hline Hurl Hver Hfrag rq rs Q0.
  rewrite (read_idle conn data s Hidle).
  rewrite (read_new_format_error conn data _ _ _ _ _ _ _ TypeError
             Hline Hurl Hver Hfrag eq_refl);
    [|unfold server_tuple; rewrite min_tuple_short; reflexivity].
  pose proof (registered_assembling conn method u
                [server_protocol.1] (evict conn s)) as Ha.
  eexists. split; [reflexivity|]. split; [reflexivity|].
  split; [apply Ha|]. split; [exact Ha|].
  intros s1 B d Ha1.
  apply (read_without_headers conn d s1 rq rs Q0 B Ha1). reflexivity.
Qed.


(** X12. A request that the assembler accepts, without
    [Expect: 100-continue], whose Content-Length is not an integer: the
    first delivery stores the headers and the body bytes that came along,
    then raises ValueError; so does every later delivery, after writing its
    bytes to the body. The request is never dispatched. *)
Theorem bad_content_length_raises_forever (conn : Sock) (s : State)
    (data method : string) (u : UrlParts) (ver : list Z) (p : string)
    (hdrs : Headers.t) (f0 : string) :
  idle s conn ->
  opens data method u ver p hdrs f0 ->
  Headers.get hdrs "Expect" "" <> "100-continue" ->
  Py.int (Headers.get hdrs "Content-Length" "0") = None ->
  let rq := length (requests s) in
  let rs := length (responses s) in
  let Q0 := Request.with_headers hdrs (new_Request conn method u ver) in
  exists s1,
    read conn data s = (s1, Raise ValueError) /\
    queue s1 = queue s /\
    assembling s1 conn rq rs Q0 f0 /\
    forall s' B d,
      assembling s' conn rq rs Q0 B ->
      exists s'',
        read conn d s' = (s'', Raise ValueError) /\ queue s'' = queue s' /\
        assembling s'' conn rq rs Q0 (B +:+ d).
Proof.
  intros Hidle
    (target & proto & rest & Hline & Hurl & Hver & Hfrag & Hmajor & Hfmt & Hhdr)
    Hexp Hint rq rs Q0.
  assert (HL : content_length (Some hdrs) = Raise ValueError).
  { unfold content_length, header. rewrite Hint. reflexivity. }
  rewrite (read_idle conn data s Hidle).
  rewrite (read_new_accepted conn data _ _ _ _ _ _ _ _ _ _
             Hline Hurl Hver Hfrag Hmajor Hfmt Hhdr).
  apply String.eqb_neq in Hexp. rewrite Hexp, HL.
  eexists. split; [reflexivity|]. split; [reflexivity|].
  split; [apply accepted_assembling|].
  intros s' B d Ha. apply (read_raising conn d s' rq rs Q0 B _ Ha HL).
Qed.

(** X13. Once the body is longer than the declared Content-Length, no
    delivery dispatches the request any more: every one of them is written
    to the body and pushes nothing. *)
Theorem overlong_body_never_dispatched (conn : Sock) (rq rs : Ref)
    (Q0 : Request.t) (B : string) (L : Z) (ds : list string) (s : State) :
  assembling s conn rq rs Q0 B ->
  content_length (Request.headers Q0) = Ok L ->
  (L < Z.of_nat (Py.len B))%Z ->
  exists s',
    reads conn ds s = (s', Ok tt) /\ queue s' = queue s /\
    assembling s' conn rq rs Q0 (B +:+ join ds).
Proof.
  intros Ha HL Hlong.
  destruct (reads_pending conn rq rs Q0 L ds s B Ha HL)
    as (s' & Hr & Hq & _ & Ha').
  - intros k _. rewrite len_app. lia.
  - exists s'. split; [exact Hr|]. split; [exact Hq|exact Ha'].
Qed.

Lemma write_rewound (B d : string) :
  StringIO.write d {| StringIO.buf := B; StringIO.pos := 0 |}
    = {| StringIO.buf := d +:+ Py.drop (Py.len d) B;
         StringIO.pos := Py.len d |}.
Proof. destruct d; reflexivity. Qed.

(** A delivery to a pair already dispatched, whose Response is not done:
    the bytes are written over the body from its start, and the pair is
    dispatched again exactly when the delivery alone has the declared
    length. *)
Lemma read_awaiting (conn : Sock) (d : string) (s : State) (rq rs : Ref)
    (Q0 : Request.t) (B : string) (L : Z) :
  awaiting s conn rq rs Q0 B ->
  content_length (Request.headers Q0) = Ok L ->
  exists s',
    read conn d s = (s', Ok tt) /\
    (Z.of_nat (Py.len d) = L ->
     queue s' = queue s ++ [events.Request rq rs] /\
     awaiting s' conn rq rs Q0 (d +:+ Py.drop (Py.len d) B)) /\
    (Z.of_nat (Py.len d) <> L ->
     queue s' = queue s /\
     requests s' !! rq
       = Some (Request.with_body
                 {| StringIO.buf := d +:+ Py.drop (Py.len d) B;
                    StringIO.pos := Py.len d |} Q0)).
Proof.
  intros (Hc & (R & HR & Hd) & HQ) HL.
  destruct (read_live_length conn d s rq rs R _ L Hc HR Hd HQ HL)
    as (h & _ & ->).
  unfold append. cbn [Request.body Request.with_body].
  rewrite write_rewound. cbn [StringIO.tell StringIO.pos].
  destruct (Z.eqb_spec (Z.of_nat (Py.len d)) L) as [Heq|Hne].
  - eexists. split; [reflexivity|]. split; [|congruence].
    intros _. split; [reflexivity|]. split; [exact Hc|]. split.
    + cbn [completed responses appended].
      match goal with |- context [if ?c then _ else _] => destruct c end.
      * exists (Response.with_close true R).
        rewrite list_lookup_alter_eq, HR. split; [reflexivity|exact Hd].
      * exists R. split; assumption.
    + cbn [completed appended requests].
      rewrite !list_lookup_alter_eq, HQ.
      cbn [fmap option_fmap option_map]. unfold rewind, append.
      cbn [Request.body Request.with_body]. rewrite write_rewound.
      reflexivity.
  - eexists. split; [reflexivity|]. split; [congruence|].
    intros _. split; [reflexivity|].
    cbn [appended requests]. rewrite list_lookup_alter_eq, HQ.
    cbn [fmap option_fmap option_map]. unfold append.
    cbn [Request.body Request.with_body]. rewrite write_rewound. reflexivity.
Qed.

Lemma read_completing_awaiting (conn : Sock) (d : string) (s : State)
    (rq rs : Ref) (Q0 : Request.t) (B : string) (L : Z) :
  assembling s conn rq rs Q0 B ->
  content_length (Request.headers Q0) = Ok L ->
  Z.of_nat (Py.len (B +:+ d)) = L ->
  exists s',
    read conn d s = (s', Ok tt) /\
    queue s' = queue s ++ [events.Request rq rs] /\
    awaiting s' conn rq rs Q0 (B +:+ d).
Proof.
  intros (Hc & (R & HR & Hd) & HQ) HL Heq.
  destruct (read_live_length conn d s rq rs R _ L Hc HR Hd HQ HL)
    as (h & _ & ->).
  unfold append. cbn [Request.body Request.with_body].
  rewrite write_written. cbn [written StringIO.tell StringIO.pos].
  apply Z.eqb_eq in Heq. rewrite Heq.
  eexists. split; [reflexivity|]. split; [reflexivity|].
  split; [exact Hc|]. split.
  - cbn [completed responses appended].
    match goal with |- context [if ?c then _ else _] => destruct c end.
    + exists (Response.with_close true R).
      rewrite list_lookup_alter_eq, HR. split; [reflexivity|exact Hd].
    + exists R. split; assumption.
  - cbn [completed appended requests].
    rewrite !list_lookup_alter_eq, HQ.
    cbn [fmap option_fmap option_map]. unfold rewind, append.
    cbn [Request.body Request.with_body]. rewrite write_written. reflexivity.
Qed.

(** X14. Bytes that arrive after the dispatch and before the Response is
    done are not kept for a next request: a delivery of the declared
    length replaces the body of the request just dispatched, and the same
    pair is dispatched a second time. *)
Theorem second_body_dispatches_again (conn : Sock) (d1 d2 : string)
    (s : State) (rq rs : Ref) (Q0 : Request.t) (B : string) (L : Z) :
  assembling s conn rq rs Q0 B ->
  content_length (Request.headers Q0) = Ok L ->
  Z.of_nat (Py.len (B +:+ d1)) = L ->
  Z.of_nat (Py.len d2) = L ->
  exists s',
    reads conn [d1; d2] s = (s', Ok tt) /\
    queue s' = queue s ++ [events.Request rq rs; events.Request rq rs] /\
    requests s' !! rq
      = Some (Request.with_body
                {| StringIO.buf := d2; StringIO.pos := 0 |} Q0).
Proof.
  intros Ha HL H1 H2.
  destruct (read_completing_awaiting conn d1 s rq rs Q0 B L Ha HL H1)
    as (s1 & Hr1 & Hq1 & Hw1).
  destruct (read_awaiting conn d2 s1 rq rs Q0 (B +:+ d1) L Hw1 HL)
    as (s2 & Hr2 & Hyes & _).
  destruct (Hyes H2) as (Hq2 & _ & _ & HQ2).
  exists s2. cbn [reads]. unfold bind. rewrite Hr1, Hr2.
  split; [reflexivity|]. split.
  - rewrite Hq2, Hq1, <- app_assoc. reflexivity.
  - rewrite HQ2, drop_ge, app_empty_r by lia. reflexivity.
Qed.

(** X15. For a request that the assembler accepts and that is complete in
    its first delivery, whether the connection closes is decided, at its
    completion, by the version the client sent: for version 1.1 it closes
    exactly when the Connection header is "close", for every other version
    exactly when that header is not "keep-alive", the header value being
    compared without regard to case. *)
Theorem close_decided_at_completion (conn : Sock) (s : State)
    (data method : string) (u : UrlParts) (ver : list Z) (p : string)
    (hdrs : Headers.t) (f0 : string) :
  idle s conn ->
  opens data method u ver p hdrs f0 ->
  Headers.get hdrs "Expect" "" <> "100-continue" ->
  content_length (Some hdrs) = Ok (Z.of_nat (Py.len f0)) ->
  exists s',
    read conn data s = (s', Ok tt) /\
    queue s' = queue s
               ++ [events.Request (length (requests s)) (length (responses s))] /\
    Response.close <$> responses s' !! length (responses s)
      = Some (if bool_decide (ver = [1; 1]%Z)
              then String.eqb
                     (Py.lower (Headers.get hdrs "Connection" "")) "close"
              else negb (String.eqb
                           (Py.lower (Headers.get hdrs "Connection" ""))
                           "keep-alive")).
Proof.
  intros Hidle
    (target & proto & rest & Hline & Hurl & Hver & Hfrag & Hmajor & Hfmt & Hhdr)
    Hexp HL.
  rewrite (read_idle conn data s Hidle).
  rewrite (read_new_accepted conn data _ _ _ _ _ _ _ _ _ _
             Hline Hurl Hver Hfrag Hmajor Hfmt Hhdr).
  apply String.eqb_neq in Hexp. rewrite Hexp, HL, Z.eqb_refl.
  erewrite (complete_eq _ _ _ hdrs) by (apply lookup_new || reflexivity).
  eexists. split; [reflexivity|]. split; [reflexivity|].
  cbn [completed responses accepted evict set_clients].
  unfold closing.
  cbn [Request.protocol Request.headers Request.with_body
       Request.with_headers new_Request Request.new].
  destruct (bool_decide (ver = [1; 1]%Z));
    match goal with |- context [String.eqb ?a ?b] => destruct (String.eqb a b) end;
    cbn [negb]; rewrite ?list_lookup_alter_eq, lookup_new; reflexivity.
Qed.

End AfterRegistration.

(** ** Streaming any body *)

Section AnyStream.
Context `{Env}.

Lemma writes_chunk_trace (r : Ref) (R : Response.t) (cs : list string) :
  writes (chunk_trace r R cs) = framed R <$> cs.
Proof.
  induction cs as [|c cs IH]; [reflexivity|].
  cbn [chunk_trace fmap list_fmap].
  change (writes (events.Stream r (Some c)
                    :: events.Write (Response.sock R) (framed R c)
                    :: chunk_trace r R cs))
    with (framed R c :: writes (chunk_trace r R cs)).
  rewrite IH. reflexivity.
Qed.

(** The connections closed in a trace. *)
Lemma closing_events_writes (b : bool) (R : Response.t) :
  writes (closing_events b R) = if b then [last_chunk] else [].
Proof. unfold closing_events. destruct b, (Response.close R); reflexivity. Qed.

(** X16. A streaming Response whose body yields the non-empty elements
    [cs] and then ends, by exhaustion or with an empty element: the run
    from its Response event writes the header block, then each element in
    order, framed as a chunk when the Response is chunked and as it is
    otherwise, then the terminal chunk when it is chunked; the close of the
    connection is the last event when [close] is set; the body has been
    closed once and the Response is done. *)
Theorem stream_writes_every_element (r : Ref) (R : Response.t)
    (cs tl : list string) (s : State) :
  Forall (fun c => c <> "") cs ->
  nonempty (head tl) = false ->
  responses s !! r = Some R ->
  Response.stream R = true ->
  Response.body R = gen (cs ++ tl) 0 ->
  Response.done R = false ->
  queue s = [events.Response r] ->
  exists s' tr,
    (forall n, run (length tr + n) s = (s', tr, Ok tt)) /\
    writes tr
      = output R ++ (framed R <$> cs)
        ++ (if Response.chunked R then [last_chunk] else []) /\
    (Response.close R = true -> last tr = Some (events.Close (Response.sock R))) /\
    (Response.close R = false -> forall c, events.Close c ∉ tr) /\
    queue s' = [] /\
    responses s' !! r
      = Some (Response.with_done true (Response.with_body (gen [] 1) R)).
Proof.
  intros Hall Htl HR Hs Hb Hd Hq.
  pose proof (lookup_lt_Some _ _ _ HR) as Hlt.
  destruct (stream_whole r R cs tl s Hall Htl HR Hs Hb Hd Hq) as [_ Hend].
  cbv zeta in Hend.
  set (first := events.Response r
                  :: (events.Write (Response.sock R) <$> output R)) in *.
  set (last_ := events.Stream r (head tl)
                  :: closing_events (Response.chunked R) R) in *.
  exists (set_response r
            (Response.with_done true (Response.with_body (gen [] 1) R)) [] s),
    (first ++ chunk_trace r R cs ++ last_).
  split; [|split; [|split; [|split; [|split; [reflexivity|]]]]].
  - intros n. rewrite <- (Hend n). f_equal.
    rewrite !length_app. lia.
  - rewrite !writes_app. subst first last_.
    change (writes (events.Response r
                      :: (events.Write (Response.sock R) <$> output R)))
      with (writes (events.Write (Response.sock R) <$> output R)).
    change (writes (events.Stream r (head tl)
                      :: closing_events (Response.chunked R) R))
      with (writes (closing_events (Response.chunked R) R)).
    rewrite writes_Write, writes_chunk_trace, closing_events_writes.
    reflexivity.
  - intros Hclose. subst last_. unfold closing_events. rewrite Hclose.
    rewrite !app_assoc, app_comm_cons, !app_assoc. apply last_snoc.
  - intros Hclose c Hin. subst first last_. unfold closing_events in Hin.
    rewrite Hclose, app_nil_r in Hin.
    apply elem_of_cons in Hin as [Hin|Hin]; [discriminate Hin|].
    apply elem_of_app in Hin as [Hin|Hin].
    { apply list_elem_of_fmap in Hin as (d & Hin & _). discriminate Hin. }
    apply elem_of_app in Hin as [Hin|Hin].
    { clear -Hin. induction cs as [|x cs IH]; cbn [chunk_trace] in Hin.
      - inversion Hin.
      - apply elem_of_cons in Hin as [Hin|Hin]; [discriminate Hin|].
        apply elem_of_cons in Hin as [Hin|Hin]; [discriminate Hin|auto]. }
    apply elem_of_cons in Hin as [Hin|Hin]; [discriminate Hin|].
    destruct (Response.chunked R); [|inversion Hin].
    apply elem_of_cons in Hin as [Hin|Hin]; [discriminate Hin|inversion Hin].
  - cbn [set_response responses]. apply list_lookup_insert_eq, Hlt.
Qed.

(** X17. A Response flagged as streaming whose body is not a lazy
    sequence (a string, say): [response] writes the header block and then
    raises AttributeError at the first pull. Nothing is scheduled and the
    Response is not done. *)
Theorem streaming_flag_with_plain_body_raises (r : Ref) (R : Response.t)
    (s : State) :
  responses s !! r = Some R ->
  Response.stream R = true ->
  truthy (Response.body R) = true ->
  (forall g, Response.body R <> VGen g) ->
  response r s
    = (set_queue (queue s ++ (events.Write (Response.sock R) <$> output R)) s,
       Raise AttributeError) /\
  responses (response r s).1 !! r = Some R.
Proof.
  intros HR Hs Ht Hng.
  assert (E : response r s
    = (set_queue (queue s ++ (events.Write (Response.sock R) <$> output R)) s,
       Raise AttributeError)).
  { unfold response, bind, get_response. rewrite HR. cbn [from_option_exn].
    rewrite push_writes_eq, Hs, Ht. cbn [andb].
    unfold body_next, bind, get_response, set_queue. cbn [responses].
    rewrite HR. cbn [from_option_exn].
    destruct (Response.body R) as [| | | | g | |] eqn:Hb;
      try reflexivity. exfalso. exact (Hng g eq_refl). }
  split; [exact E|]. rewrite E. exact HR.
Qed.

End AnyStream.

(** ** The request line *)

Section RequestLine.
Context `{Env}.

Lemma cut_Some (sep : ascii) (s a b : string) :
  Py.cut sep s = Some (a, b) -> s = a +:+ String sep b /\ Py.cut sep a = None.
Proof.
  revert a b. induction s as [|c s IH]; intros a b; cbn [Py.cut];
    [discriminate|].
  destruct (Ascii.eqb_spec c sep) as [->|Hne].
  - intros [= <- <-]. split; reflexivity.
  - destruct (Py.cut sep s) as [[a' b']|]; [|discriminate].
    intros [= <- <-]. destruct (IH a' b' eq_refl) as [-> Hnone].
    split; [reflexivity|]. cbn [Py.cut].
    destruct (Ascii.eqb_spec c sep) as [->|_]; [contradiction|].
    rewrite Hnone. reflexivity.
Qed.

Lemma cut_app (sep : ascii) (a b : string) :
  Py.cut sep a = None -> Py.cut sep (a +:+ String sep b) = Some (a, b).
Proof.
  induction a as [|c a IH]; intros Hnone.
  - change ("" +:+ String sep b) with (String sep b). cbn [Py.cut].
    rewrite Ascii.eqb_refl. reflexivity.
  - rewrite app_cons. cbn [Py.cut] in *.
    destruct (Ascii.eqb c sep); [discriminate|].
    destruct (Py.cut sep a) as [[x y]|] eqn:E; [discriminate|].
    rewrite IH by reflexivity. reflexivity.
Qed.

(** X18. The request line is what precedes the first line feed, stripped
    of surrounding white space; it parses exactly when it has the form
    method, space, target, space, protocol, where neither the method nor
    the target holds a space (the protocol may), and these are the three
    fields returned, with the bytes after that line feed. *)
Theorem request_line_fields (data method target proto rest : string) :
  parse_requestline data = Ok (method, target, proto, rest) <->
  exists line,
    data = line +:+ String LF rest /\
    Py.cut LF line = None /\
    Py.strip line = method +:+ " " +:+ target +:+ " " +:+ proto /\
    Py.cut " " method = None /\
    Py.cut " " target = None.
Proof.
  unfold parse_requestline. split.
  - cbn [Py.split].
    destruct (Py.cut LF data) as [[line rest']|] eqn:E1; [|discriminate].
    destruct (Py.cut " " (Py.strip line)) as [[m r1]|] eqn:E2; [|discriminate].
    destruct (Py.cut " " r1) as [[t r2]|] eqn:E3; [|discriminate].
    intros [= <- <- <- <-].
    destruct (cut_Some _ _ _ _ E1) as [-> H1].
    destruct (cut_Some _ _ _ _ E2) as [Hs H2].
    destruct (cut_Some _ _ _ _ E3) as [-> H3].
    exists line. repeat split; assumption.
  - intros (line & -> & H1 & Hs & H2 & H3).
    cbn [Py.split]. rewrite (cut_app LF line rest H1), Hs.
    change (method +:+ " " +:+ target +:+ " " +:+ proto)
      with (method +:+ String " " (target +:+ String " " proto)).
    rewrite (cut_app " " method _ H2), (cut_app " " target _ H3).
    reflexivity.
Qed.

End RequestLine.

(** ** What every handler keeps *)

Section Kept.
Context `{Env}.

Lemma evolves_refl (conn : option Sock) (s : State) : evolves conn s s.
Proof.
  repeat split; try reflexivity.
  - intros r R HR Hd. exists R. split; assumption.
  - exists []. rewrite app_nil_r. reflexivity.
Qed.

Lemma evolves_trans (conn : option Sock) (s1 s2 s3 : State) :
  evolves conn s1 s2 -> evolves conn s2 s3 -> evolves conn s1 s3.
Proof.
  intros (Hc1 & Hd1 & (e1 & Hq1) & Hn1 & Hm1) (Hc2 & Hd2 & (e2 & Hq2) & Hn2 & Hm2).
  repeat split; try lia.
  - intros c Hne. rewrite Hc2, Hc1 by exact Hne. reflexivity.
  - intros r R HR Hd. destruct (Hd1 r R HR Hd) as (R' & HR' & Hd').
    exact (Hd2 r R' HR' Hd').
  - exists (e1 ++ e2). rewrite Hq2, Hq1, app_assoc. reflexivity.
Qed.

Lemma evolves_weaken (conn : option Sock) (s s' : State) :
  evolves None s s' -> evolves conn s s'.
Proof.
  intros (Hc & Hrest). split; [|exact Hrest].
  intros c _. apply Hc. discriminate.
Qed.

Lemma pres_weaken {A} (conn : option Sock) (m : M A) :
  preserves None m -> preserves conn m.
Proof. intros Hm s. apply evolves_weaken, Hm. Qed.

Lemma pres_ret {A} (conn : option Sock) (a : A) : preserves conn (ret a).
Proof. intros s. apply evolves_refl. Qed.

Lemma pres_raise {A} (conn : option Sock) (e : Exn) :
  preserves conn (@raise A e).
Proof. intros s. apply evolves_refl. Qed.

Lemma pres_lift {A} (conn : option Sock) (r : Result A) :
  preserves conn (lift r).
Proof. intros s. apply evolves_refl. Qed.

Lemma pres_get_request (conn : option Sock) (r : Ref) :
  preserves conn (get_request r).
Proof. intros s. apply evolves_refl. Qed.

Lemma pres_get_response (conn : option Sock) (r : Ref) :
  preserves conn (get_response r).
Proof. intros s. apply evolves_refl. Qed.

Lemma pres_lookup_client (conn : option Sock) (c : Sock) :
  preserves conn (lookup_client c).
Proof. intros s. apply evolves_refl. Qed.

Lemma pres_bind {A B} (conn : option Sock) (m : M A) (k : A -> M B) :
  preserves conn m -> (forall a, preserves conn (k a)) ->
  preserves conn (bind m k).
Proof.
  intros Hm Hk s. unfold bind. specialize (Hm s).
  destruct (m s) as [s' [a|e]]; cbn [fst] in *; [|exact Hm].
  eapply evolves_trans; [exact Hm|apply Hk].
Qed.

Lemma pres_when (conn : option Sock) (b : bool) (m : M unit) :
  preserves conn m -> preserves conn (when b m).
Proof. intros Hm. destruct b; [exact Hm|apply pres_ret]. Qed.

Lemma pres_push (conn : option Sock) (e : Event) : preserves conn (push e).
Proof.
  intros s.
  unfold evolves, push, update_request, update_response, new_request,
    new_response, set_client, del_client.
  cbn [fst _clients requests responses queue].
  repeat split; try reflexivity.
  - intros r R HR Hd. exists R. split; assumption.
  - eexists. reflexivity.
Qed.

Lemma pres_update_request (conn : option Sock) (r : Ref)
    (f : Request.t -> Request.t) :
  preserves conn (update_request r f).
Proof.
  intros s.
  unfold evolves, push, update_request, update_response, new_request,
    new_response, set_client, del_client.
  cbn [fst _clients requests responses queue].
  repeat split; try reflexivity.
  - intros r0 R HR Hd. exists R. split; assumption.
  - exists []. rewrite app_nil_r. reflexivity.
  - rewrite length_alter. reflexivity.
Qed.

Lemma pres_update_response (conn : option Sock) (r : Ref)
    (f : Response.t -> Response.t) :
  (forall R, Response.done R = true -> Response.done (f R) = true) ->
  preserves conn (update_response r f).
Proof.
  intros Hf s. unfold evolves, update_response.
  cbn [fst _clients requests responses queue].
  repeat split; try reflexivity.
  - intros r0 R HR Hd. destruct (decide (r = r0)) as [->|Hne].
    + exists (f R). rewrite list_lookup_alter_eq, HR. split; [reflexivity|].
      apply Hf, Hd.
    + exists R. rewrite list_lookup_alter_ne by exact Hne. split; assumption.
  - exists []. rewrite app_nil_r. reflexivity.
  - rewrite length_alter. reflexivity.
Qed.

Lemma pres_new_request (conn : option Sock) (o : Request.t) :
  preserves conn (new_request o).
Proof.
  intros s.
  unfold evolves, push, update_request, update_response, new_request,
    new_response, set_client, del_client.
  cbn [fst _clients requests responses queue].
  repeat split; try reflexivity.
  - intros r0 R HR Hd. exists R. split; assumption.
  - exists []. rewrite app_nil_r. reflexivity.
  - rewrite length_app. lia.
Qed.

Lemma pres_new_response (conn : option Sock) (o : Response.t) :
  preserves conn (new_response o).
Proof.
  intros s.
  unfold evolves, push, update_request, update_response, new_request,
    new_response, set_client, del_client.
  cbn [fst _clients requests responses queue].
  repeat split; try reflexivity.
  - intros r0 R HR Hd. exists R. split; [apply lookup_app_l_Some, HR|exact Hd].
  - exists []. rewrite app_nil_r. reflexivity.
  - rewrite length_app. lia.
Qed.

Lemma pres_set_client (conn : Sock) (p : Ref * Ref) :
  preserves (Some conn) (set_client conn p).
Proof.
  intros s.
  unfold evolves, push, update_request, update_response, new_request,
    new_response, set_client, del_client.
  cbn [fst _clients requests responses queue].
  repeat split; try reflexivity.
  - intros c Hne. apply lookup_insert_ne. congruence.
  - intros r0 R HR Hd. exists R. split; assumption.
  - exists []. rewrite app_nil_r. reflexivity.
Qed.

Lemma pres_del_client (conn : Sock) :
  preserves (Some conn) (del_client conn).
Proof.
  intros s.
  unfold evolves, push, update_request, update_response, new_request,
    new_response, set_client, del_client.
  cbn [fst _clients requests responses queue].
  repeat split; try reflexivity.
  - intros c Hne. apply lookup_delete_ne. congruence.
  - intros r0 R HR Hd. exists R. split; assumption.
  - exists []. rewrite app_nil_r. reflexivity.
Qed.

End Kept.

Section KeptByHandlers.
Context `{Env}.

(** The handlers registered for the error hook are not this component's;
    they are taken to keep what its own handlers keep. The default handler
    does. *)
Hypothesis hook_keeps : forall e, preserves None (send_httperror e).

Lemma pres_httperror (e : errors.HTTPError) : preserves None (httperror e).
Proof.
  unfold httperror.
  repeat first [apply pres_ret | apply pres_push | apply pres_bind; [|intros ?]].
Qed.

Lemma pres_push_writes (sock : Sock) (l : list string) :
  preserves None (push_writes sock l).
Proof.
  induction l as [|d l IH]; cbn [push_writes]; [apply pres_ret|].
  apply pres_bind; [apply pres_push|intros _; exact IH].
Qed.

Lemma pres_body_next (r : Ref) : preserves None (body_next r).
Proof.
  unfold body_next.
  repeat first
    [ apply pres_ret | apply pres_raise | apply pres_get_response
    | apply pres_update_response; intros ? Hd'; exact Hd'
    | apply pres_bind; [|intros ?]
    | match goal with
      | |- preserves _ (match ?x with _ => _ end) => destruct x
      end ].
Qed.

Lemma pres_body_close (r : Ref) : preserves None (body_close r).
Proof.
  unfold body_close.
  repeat first
    [ apply pres_ret | apply pres_raise | apply pres_get_response
    | apply pres_update_response; intros ? Hd'; exact Hd'
    | apply pres_bind; [|intros ?]
    | match goal with
      | |- preserves _ (match ?x with _ => _ end) => destruct x
      end ].
Qed.

Lemma pres_stream (r : Ref) (data : option string) :
  preserves None (stream r data).
Proof.
  unfold stream.
  repeat first
    [ apply pres_ret | apply pres_push | apply pres_get_response
    | apply pres_body_next | apply pres_body_close | apply pres_when
    | apply pres_update_response; intros ? Hd'; reflexivity
    | apply pres_bind; [|intros ?]
    | match goal with
      | |- preserves _ (if ?c then _ else _) => destruct c
      end ].
Qed.

Lemma pres_response (r : Ref) : preserves None (response r).
Proof.
  unfold response.
  repeat first
    [ apply pres_ret | apply pres_push | apply pres_get_response
    | apply pres_push_writes | apply pres_body_next | apply pres_when
    | apply pres_update_response; intros ? Hd'; reflexivity
    | apply pres_bind; [|intros ?]
    | match goal with
      | |- preserves _ (if ?c then _ else _) => destruct c
      end ].
Qed.

Lemma pres_simple (sock : Sock) (code : Z) (message : string) :
  preserves None (simple sock code message).
Proof.
  unfold simple. destruct (reason code) as [short long].
  repeat first
    [ apply pres_ret | apply pres_push | apply pres_get_response
    | apply pres_new_response | apply pres_when
    | apply pres_update_response; intros ? Hd'; exact Hd'
    | apply pres_bind; [|intros ?] ].
Qed.

Lemma pres_HTTPError (rq rs : Ref) (status : Z) (m e : option string) :
  preserves None (HTTPError rq rs status m e).
Proof.
  unfold HTTPError.
  repeat first
    [ apply pres_ret
    | apply pres_update_response; intros ? Hd';
      rewrite HTTPError_init_done; exact Hd'
    | apply pres_bind; [|intros ?] ].
Qed.

Lemma pres_handleError (e : errors.HTTPError) : preserves None (_handleError e).
Proof.
  unfold _handleError.
  apply pres_bind; [apply hook_keeps|intros retval].
  destruct (truthy retval); [|apply pres_ret].
  destruct (is_basestring retval).
  - apply pres_bind; [|intros _; apply pres_push].
    apply pres_update_response. intros ? Hd'. exact Hd'.
  - destruct retval; first [apply pres_ret | apply pres_push].
Qed.

Lemma pres_success (rq rs : Ref) (retval : Value) :
  preserves None (request_success_or_filtered rq rs retval).
Proof.
  unfold request_success_or_filtered.
  destruct (truthy retval); [|apply pres_ret].
  apply pres_bind; [apply pres_update_request|intros _].
  destruct retval;
    repeat first
      [ apply pres_ret | apply pres_push | apply pres_handleError
      | apply pres_update_response; intros ? Hd'; exact Hd'
      | apply pres_bind; [|intros ?] ].
Qed.

Lemma pres_failure (rq rs : Ref) (cause : string) :
  preserves None (request_failure rq rs cause).
Proof.
  unfold request_failure.
  apply pres_bind; [apply pres_HTTPError|intros e; apply pres_handleError].
Qed.

Lemma pres_completed (rq rs : Ref) (handler : option string) :
  preserves None (request_completed rq rs handler).
Proof.
  unfold request_completed, NotFound.
  apply pres_bind; [apply pres_get_request|intros Q].
  match goal with |- preserves _ (if ?c then _ else _) => destruct c end;
    [|apply pres_ret].
  apply pres_bind; [apply pres_HTTPError|intros e; apply pres_handleError].
Qed.

Lemma pres_disconnect (conn : Sock) : preserves (Some conn) (disconnect conn).
Proof.
  unfold disconnect.
  apply pres_bind; [apply pres_lookup_client|intros [p|]];
    [apply pres_del_client|apply pres_ret].
Qed.

Lemma pres_complete (conn : option Sock) (rq rs : Ref) :
  preserves conn (complete rq rs).
Proof.
  unfold complete.
  repeat first
    [ apply pres_ret | apply pres_push | apply pres_lift
    | apply pres_get_request | apply pres_update_request | apply pres_when
    | apply pres_update_response; intros ? Hd'; exact Hd'
    | apply pres_bind; [|intros ?]
    | match goal with
      | |- preserves _ (if ?c then _ else _) => destruct c
      end ].
Qed.

Lemma pres_read_new (conn : Sock) (data : string) :
  preserves (Some conn) (read_new conn data).
Proof.
  unfold read_new.
  repeat first
    [ apply pres_ret | apply pres_push | apply pres_lift
    | apply pres_get_request | apply pres_update_request
    | apply pres_new_request | apply pres_new_response
    | apply pres_set_client | apply pres_complete
    | apply pres_weaken; apply pres_simple
    | apply pres_weaken; apply pres_HTTPError
    | apply pres_update_response; intros ? Hd'; exact Hd'
    | apply pres_bind; [|intros ?]
    | match goal with
      | |- preserves _ (if ?c then _ else _) => destruct c
      | |- preserves _ (match ?x with _ => _ end) => destruct x
      end ].
Qed.

Lemma pres_read (conn : Sock) (data : string) :
  preserves (Some conn) (read conn data).
Proof.
  unfold read.
  repeat first
    [ apply pres_ret | apply pres_lift | apply pres_lookup_client
    | apply pres_get_request | apply pres_get_response
    | apply pres_update_request | apply pres_del_client | apply pres_when
    | apply pres_complete | apply pres_read_new
    | apply pres_bind; [|intros ?]
    | match goal with
      | |- preserves _ (if ?c then _ else _) => destruct c
      | |- preserves _ (match ?x with _ => _ end) => destruct x
      end ].
Qed.

Lemma pres_deliver (e : Event) : preserves None (deliver e).
Proof.
  destruct e; cbn [deliver];
    first [ apply pres_ret | apply pres_response | apply pres_stream | idtac ].
  apply pres_bind; [apply hook_keeps|intros _; apply pres_ret].
Qed.

End KeptByHandlers.

(** ** Invariants of the component *)

Section Invariants.
Context `{Env}.

Lemma evolves_table (s s' : State) :
  evolves None s s' -> _clients s' = _clients s.
Proof. intros (Hc & _). apply map_eq. intros c. apply Hc. discriminate. Qed.

Lemma evolves_settles (s s' : State) : evolves None s s' -> settles s s'.
Proof.
  intros Hev. split; [apply evolves_table, Hev|].
  destruct Hev as (_ & Hd & _ & Hn & Hm). repeat split; assumption.
Qed.

Lemma settles_trans (s1 s2 s3 : State) :
  settles s1 s2 -> settles s2 s3 -> settles s1 s3.
Proof.
  intros (Hc1 & Hd1 & Hn1 & Hm1) (Hc2 & Hd2 & Hn2 & Hm2).
  repeat split; try lia; [congruence|].
  intros r R HR Hd. destruct (Hd1 r R HR Hd) as (R' & HR' & Hd').
  exact (Hd2 r R' HR' Hd').
Qed.

Lemma settles_set_queue (q : list Event) (s : State) : settles s (set_queue q s).
Proof.
  repeat split; try reflexivity.
  intros r R HR Hd. exists R. split; assumption.
Qed.

(** Delivering the queue keeps the table and what is done, however many
    events are delivered and whether or not a handler raises. *)
Lemma run_settles :
  (forall e, preserves None (send_httperror e)) ->
  forall (n : nat) (s : State), settles s (run n s).1.1.
Proof.
  intros Hhook. induction n as [|n IH]; intros s.
  - cbn [run fst]. rewrite <- (set_queue_queue s) at 2. apply settles_set_queue.
  - cbn [run]. destruct (queue s) as [|e q] eqn:Hq.
    + cbn [fst]. rewrite <- (set_queue_queue s) at 2. apply settles_set_queue.
    + pose proof (pres_deliver Hhook e (set_queue q s)) as Hev.
      destruct (deliver e (set_queue q s)) as [s' [[]|x]]; cbn [fst] in Hev.
      * specialize (IH s'). destruct (run n s') as [[s'' tr] r].
        cbn [fst] in *.
        eapply settles_trans; [apply (settles_set_queue q)|].
        eapply settles_trans; [apply evolves_settles, Hev|exact IH].
      * cbn [fst].
        eapply settles_trans; [apply (settles_set_queue q)|].
        apply evolves_settles, Hev.
Qed.

(** X19. The connection table is written by [read] and [disconnect] only:
    emitting a response, pumping a stream, sending a standalone reply,
    handling a handler's result, its failure or the completion of a request,
    and delivering any number of queued events, all leave it as it was. *)
Theorem table_written_only_by_read_and_disconnect (s : State) :
  (forall e, preserves None (send_httperror e)) ->
  (forall r, _clients (response r s).1 = _clients s) /\
  (forall r d, _clients (stream r d s).1 = _clients s) /\
  (forall sock code message,
      _clients (simple sock code message s).1 = _clients s) /\
  (forall rq rs retval,
      _clients (request_success_or_filtered rq rs retval s).1 = _clients s) /\
  (forall rq rs cause, _clients (request_failure rq rs cause s).1 = _clients s) /\
  (forall rq rs handler,
      _clients (request_completed rq rs handler s).1 = _clients s) /\
  (forall n, _clients (run n s).1.1 = _clients s).
Proof.
  intros Hhook. repeat split; intros.
  - apply evolves_table, pres_response.
  - apply evolves_table, pres_stream.
  - apply evolves_table, pres_simple.
  - apply evolves_table, (pres_success Hhook).
  - apply evolves_table, (pres_failure Hhook).
  - apply evolves_table, (pres_completed Hhook).
  - apply (run_settles Hhook).
Qed.

(** X20. [read] and [disconnect] touch the entry of their own connection
    only; the entries of all other connections are as they were, whether
    the handler returns or raises. *)
Theorem other_connections_untouched (conn c : Sock) (data : string)
    (s : State) :
  c <> conn ->
  _clients (read conn data s).1 !! c = _clients s !! c /\
  _clients (disconnect conn s).1 !! c = _clients s !! c.
Proof.
  intros Hne. split.
  - apply (pres_read conn data s). congruence.
  - apply (pres_disconnect conn s). congruence.
Qed.

(** X21. [done] is never reset: a Response that is done is still there and
    still done after any handler of the component, and after the delivery
    of any number of queued events. *)
Theorem done_is_never_reset (r : Ref) (s : State) :
  (forall e, preserves None (send_httperror e)) ->
  still_done r s ->
  (forall conn data, still_done r (read conn data s).1) /\
  (forall conn, still_done r (disconnect conn s).1) /\
  (forall r', still_done r (response r' s).1) /\
  (forall r' d, still_done r (stream r' d s).1) /\
  (forall sock code message, still_done r (simple sock code message s).1) /\
  (forall rq rs retval,
      still_done r (request_success_or_filtered rq rs retval s).1) /\
  (forall rq rs cause, still_done r (request_failure rq rs cause s).1) /\
  (forall rq rs handler,
      still_done r (request_completed rq rs handler s).1) /\
  (forall n, still_done r (run n s).1.1).
Proof.
  intros Hhook (R & HR & Hd). repeat split; intros.
  - apply (pres_read conn data s) with R; assumption.
  - apply (pres_disconnect conn s) with R; assumption.
  - apply (pres_response r' s) with R; assumption.
  - apply (pres_stream r' d s) with R; assumption.
  - apply (pres_simple sock code message s) with R; assumption.
  - apply (pres_success Hhook rq rs retval s) with R; assumption.
  - apply (pres_failure Hhook rq rs cause s) with R; assumption.
  - apply (pres_completed Hhook rq rs handler s) with R; assumption.
  - apply (run_settles Hhook n s) with R; assumption.
Qed.

(** X22. No handler takes an event off the queue or reorders it: after
    any handler the queue is the queue before, with the events it pushed
    appended, whether it returns or raises. *)
Theorem handlers_only_append_to_queue (s : State) :
  (forall e, preserves None (send_httperror e)) ->
  (forall conn data, appended_to s (read conn data s).1) /\
  (forall conn, appended_to s (disconnect conn s).1) /\
  (forall r, appended_to s (response r s).1) /\
  (forall r d, appended_to s (stream r d s).1) /\
  (forall sock code message, appended_to s (simple sock code message s).1) /\
  (forall rq rs retval,
      appended_to s (request_success_or_filtered rq rs retval s).1) /\
  (forall rq rs cause, appended_to s (request_failure rq rs cause s).1) /\
  (forall rq rs handler,
      appended_to s (request_completed rq rs handler s).1).
Proof.
  intros Hhook. repeat split; intros.
  - apply (pres_read conn data s).
  - apply (pres_disconnect conn s).
  - apply (pres_response r s).
  - apply (pres_stream r d s).
  - apply (pres_simple sock code message s).
  - apply (pres_success Hhook rq rs retval s).
  - apply (pres_failure Hhook rq rs cause s).
  - apply (pres_completed Hhook rq rs handler s).
Qed.

End Invariants.

(** ** These theorems on actual bytes *)

Lemma failure_witness :
  exists s',
    @request_failure Sample.http11 0 0 "boom" Sample.two_responses
      = (s', Ok tt) /\
    queue s' = [events.Response 0] /\
    Response.status <$> responses s' !! 0 = Some "500 Internal Server Error".
Proof.
  destruct (@failure_emits_500 Sample.http11 0 0 "boom" Sample.two_responses
              eq_refl) as (s' & Hr & Hq & HR & _).
  exists s'. split; [exact Hr|]. split; [exact Hq|]. rewrite HR. reflexivity.
Defined.

Lemma completed_witness :
  exists s',
    @request_completed Sample.http11 0 0 None Sample.two_responses
      = (s', Ok tt) /\
    queue s' = [events.Response 0] /\
    Response.status <$> responses s' !! 0 = Some "404 Not Found".
Proof.
  destruct (@completed_404_when_unhandled Sample.http11 0 0 None
              (Request.new Sample.conn "GET" "" "/" [1; 1]%Z "")
              Sample.two_responses eq_refl eq_refl)
    as (s' & Hr & Hq & HR & _).
  exists s'. split; [exact Hr|]. split; [exact Hq|]. rewrite HR. reflexivity.
Defined.

Lemma no_404_witness :
  queue
    (@request_completed Sample.http11 0 0 (Some "index")
       (@request_success_or_filtered Sample.http11 0 0 (VStr "hi")
          Sample.two_responses).1).1
    = [events.Response 0].
Proof.
  rewrite (@no_404_after_result Sample.http11 0 0 (VStr "hi") "index"
             (Request.new Sample.conn "GET" "" "/" [1; 1]%Z "")
             Sample.two_responses eq_refl eq_refl eq_refl).
  reflexivity.
Defined.

Lemma empty_result_witness :
  exists s',
    @request_success_or_filtered Sample.http11 0 0 (VStr "")
      Sample.two_responses = (Sample.two_responses, Ok tt) /\
    @request_completed Sample.http11 0 0 (Some "index") Sample.two_responses
      = (s', Ok tt) /\
    queue s' = [events.Response 0].
Proof.
  destruct (@empty_result_ends_in_404 Sample.http11 0 0 (VStr "")
              (Some "index")
              (Request.new Sample.conn "GET" "" "/" [1; 1]%Z "")
              Sample.two_responses eq_refl eq_refl eq_refl eq_refl)
    as (s' & Hs & Hc & Hq & _).
  exists s'. split; [exact Hs|]. split; [exact Hc|exact Hq].
Defined.

Lemma result_body_witness :
  exists s1 s2,
    @request_success_or_filtered Sample.http11 0 0 (VStr "hello")
      Traffic.dispatched_state = (s1, Ok tt) /\
    @run Sample.http11 3 s1
      = (s2,
         [events.Response 0;
          events.Write Sample.conn ("HTTP/1.1 200 OK" +:+ CRLF);
          events.Write Sample.conn CRLF],
         Ok tt) /\
    Response.body <$> responses s2 !! 0 = Some (VStr "hello") /\
    Response.done <$> responses s2 !! 0 = Some true.
Proof.
  destruct (@result_becomes_body_and_is_emitted Sample.http11 Sample.conn 0 0
              (Response.with_protocol "HTTP/1.1"
                 (@new_Response Sample.http11 Sample.conn 0))
              (VStr "hello") Traffic.dispatched_state)
    as (s1 & s2 & Hr & _ & _ & Hrun & _ & HR & _).
  - vm_compute. reflexivity.
  - vm_compute. reflexivity.
  - reflexivity.
  - reflexivity.
  - reflexivity.
  - exists s1, s2. split; [exact Hr|]. split; [exact (Hrun 0)|].
    rewrite HR. split; reflexivity.
Defined.

Lemma superseding_witness :
  exists s1 s2 s3,
    @request_success_or_filtered Sample.http11 0 0 (VResponse 1)
      Traffic.answered = (s1, Ok tt) /\
    (@run Sample.http11 3 s1).1.1 = s2 /\
    Response.done <$> responses s2 !! 1 = Some true /\
    Response.done <$> responses s2 !! 0 = Some false /\
    (@read Sample.http11 Sample.conn "GET / HTTP/1.1" s2).1 = s3 /\
    _clients s3 !! Sample.conn = Some (0, 0) /\
    (fun Q => StringIO.buf (Request.body Q)) <$> requests s3 !! 0
      = Some "GET / HTTP/1.1".
Proof.
  destruct (@superseding_response_leaves_pair_in_flight Sample.http11
              Sample.conn 0 0 1
              (Request.new Sample.conn "GET" "" "/" [1; 1]%Z "")
              (Response.new Sample.conn (Some 0) "200 OK" "HTTP/1.1")
              (Response.new Sample.conn None "302 Found" "HTTP/1.1")
              "GET / HTTP/1.1" Traffic.answered)
    as (s1 & s2 & s3 & res & Hr & _ & Hrun & HR1 & HR0 & Hread & Hc & Hbuf).
  - vm_compute. reflexivity.
  - reflexivity.
  - reflexivity.
  - reflexivity.
  - discriminate.
  - reflexivity.
  - reflexivity.
  - reflexivity.
  - exists s1, s2, s3. split; [exact Hr|].
    split; [exact (f_equal (fun x => x.1.1) (Hrun 0))|].
    split; [rewrite HR1; reflexivity|]. split; [rewrite HR0; reflexivity|].
    split; [rewrite Hread; reflexivity|]. split; [exact Hc|exact Hbuf].
Defined.

Lemma simple_413_witness :
  exists s1 s2,
    @simple Sample.http11 Sample.conn 413 "" initial = (s1, Ok tt) /\
    Response.headers <$> responses s1 !! 0 = Some [("Connection", "close")] /\
    @run Sample.http11 4 s1
      = (s2,
         [events.Response 0;
          events.Write Sample.conn
            ("HTTP/1.1 413 Request Entity Too Large" +:+ CRLF);
          events.Write Sample.conn ("Connection: close" +:+ CRLF +:+ CRLF);
          events.Close Sample.conn],
         Ok tt).
Proof.
  destruct (@simple_reply_closes_on_413 Sample.http11 Sample.conn 413 ""
              initial eq_refl)
    as (s1 & s2 & Hs & HR & _ & Hh & _ & Hrun & _).
  exists s1, s2. split; [exact Hs|].
  split; [exact (f_equal (fmap Response.headers) HR)|]. exact (Hrun 0).
Defined.

Lemma lesser_version_witness :
  Response.protocol
    <$> responses (@read Sample.http10 Sample.conn
                     (Sample.get "/" "HTTP/1.1") initial).1 !! 0
    = Some "HTTP/1.0".
Proof.
  exact (@response_protocol_is_lesser_version Sample.http10 Sample.conn
           (Sample.get "/" "HTTP/1.1") initial "GET" "/" "HTTP/1.1" CRLF
           (Server.parts "" "/" "" "") 1%Z
           I eq_refl eq_refl eq_refl eq_refl).
Defined.

Lemma one_component_witness :
  exists s' s2,
    @read Sample.http11 Sample.conn Traffic.short_version initial
      = (s', Raise TypeError) /\
    queue s' = [] /\ _clients s' !! Sample.conn = Some (0, 0) /\
    @read Sample.http11 Sample.conn "abc" s' = (s2, Raise AttributeError) /\
    queue s2 = [] /\
    Request.body <$> requests s2 !! 0 = Some (written "abc").
Proof.
  destruct (@one_component_version_raises Sample.http11 Sample.conn
              Traffic.short_version initial "GET" "/" "HTTP/1" CRLF
              (Server.parts "" "/" "" "") I eq_refl eq_refl eq_refl eq_refl)
    as (s' & Hr & Hq & Hc & Ha & Hnext).
  destruct (Hnext s' "" "abc" Ha) as (s2 & Hr2 & Hq2 & _ & _ & HQ2).
  exists s', s2. split; [exact Hr|]. split; [exact Hq|]. split; [exact Hc|].
  split; [exact Hr2|]. split; [rewrite Hq2; exact Hq|].
  exact (f_equal (fmap Request.body) HQ2).
Defined.


Lemma bad_length_witness :
  exists s1 s2,
    @read Sample.http11 Sample.conn Traffic.bad_length initial
      = (s1, Raise ValueError) /\
    @read Sample.http11 Sample.conn "abcde" s1 = (s2, Raise ValueError) /\
    queue s2 = [].
Proof.
  destruct (@bad_content_length_raises_forever Sample.http11 Sample.conn
              initial Traffic.bad_length "POST" (Server.parts "" "/u" "" "")
              [1; 1]%Z "HTTP/1.1" [("Content-Length", "five")] "")
    as (s1 & Hr & Hq & Ha & Hnext).
  - exact I.
  - exists "/u", "HTTP/1.1", ("Content-Length: five" +:+ CRLF +:+ CRLF).
    repeat split; vm_compute; reflexivity.
  - vm_compute. discriminate.
  - reflexivity.
  - destruct (Hnext s1 "" "abcde" Ha) as (s2 & Hr2 & Hq2 & _).
    exists s1, s2. split; [exact Hr|]. split; [exact Hr2|].
    rewrite Hq2, Hq. reflexivity.
Defined.

Lemma overlong_witness :
  exists s',
    @reads Sample.http11 Sample.conn ["x"; "yz"] Traffic.overlong
      = (s', Ok tt) /\
    queue s' = [].
Proof.
  destruct (@overlong_body_never_dispatched Sample.http11 Sample.conn 0 0
              Traffic.upload_request "abcdefg" 5%Z ["x"; "yz"]
              Traffic.overlong)
    as (s' & Hr & Hq & _).
  - split; [vm_compute; reflexivity|]. split; [|vm_compute; reflexivity].
    eexists. split; [vm_compute; reflexivity|reflexivity].
  - reflexivity.
  - vm_compute. reflexivity.
  - exists s'. split; [exact Hr|]. rewrite Hq. vm_compute. reflexivity.
Defined.

Lemma second_body_witness :
  exists s',
    @reads Sample.http11 Sample.conn ["abcde"; "vwxyz"]
      (Sample.after Sample.http11 Sample.upload) = (s', Ok tt) /\
    queue s' = [events.Request 0 0; events.Request 0 0] /\
    Request.body <$> requests s' !! 0
      = Some {| StringIO.buf := "vwxyz"; StringIO.pos := 0 |}.
Proof.
  destruct (@second_body_dispatches_again Sample.http11 Sample.conn
              "abcde" "vwxyz" (Sample.after Sample.http11 Sample.upload)
              0 0 Traffic.upload_request "" 5%Z)
    as (s' & Hr & Hq & HQ).
  - split; [vm_compute; reflexivity|]. split; [|vm_compute; reflexivity].
    eexists. split; [vm_compute; reflexivity|reflexivity].
  - reflexivity.
  - reflexivity.
  - reflexivity.
  - exists s'. split; [exact Hr|]. split.
    + rewrite Hq. vm_compute. reflexivity.
    + rewrite HQ. reflexivity.
Defined.

Lemma close_decided_witness :
  exists s',
    @read Sample.http11 Sample.conn Traffic.small_upload initial
      = (s', Ok tt) /\
    Response.close <$> responses s' !! 0 = Some false.
Proof.
  destruct (@close_decided_at_completion Sample.http11 Sample.conn initial
              Traffic.small_upload "POST" (Server.parts "" "/u" "" "")
              [1; 1]%Z "HTTP/1.1" [("Content-Length", "3")] "abc")
    as (s' & Hr & _ & Hc).
  - exact I.
  - exists "/u", "HTTP/1.1", ("Content-Length: 3" +:+ CRLF +:+ CRLF +:+ "abc").
    repeat split; vm_compute; reflexivity.
  - vm_compute. discriminate.
  - reflexivity.
  - exists s'. split; [exact Hr|]. exact Hc.
Defined.

Lemma unchunked_stream_witness :
  exists s' tr,
    @run Sample.http11 (length tr) Traffic.unchunked_state = (s', tr, Ok tt) /\
    writes tr = ["HTTP/1.0 200 OK" +:+ CRLF; CRLF; "abc"; "de"] /\
    last tr = Some (events.Close Sample.conn).
Proof.
  destruct (@stream_writes_every_element Sample.http11 0 Traffic.unchunked
              ["abc"; "de"] [] Traffic.unchunked_state)
    as (s' & tr & Hrun & Hw & Hlast & _).
  - repeat constructor; discriminate.
  - reflexivity.
  - reflexivity.
  - reflexivity.
  - reflexivity.
  - reflexivity.
  - reflexivity.
  - exists s', tr. split; [|split; [exact Hw|exact (Hlast eq_refl)]].
    rewrite <- (Hrun 0). f_equal. lia.
Defined.

Lemma mislabelled_witness :
  @response Sample.http11 0 Traffic.mislabelled_state
    = (set_queue [events.Write Sample.conn ("HTTP/1.1 200 OK" +:+ CRLF);
                  events.Write Sample.conn CRLF] Traffic.mislabelled_state,
       Raise AttributeError).
Proof.
  destruct (@streaming_flag_with_plain_body_raises Sample.http11 0
              Traffic.mislabelled Traffic.mislabelled_state
              eq_refl eq_refl eq_refl) as [Hr _].
  - intros g Hg. discriminate Hg.
  - exact Hr.
Defined.

Lemma table_witness :
  _clients (@run Sample.http11 5 (Sample.after Sample.http11 Sample.upload_expect)).1.1
    = _clients (Sample.after Sample.http11 Sample.upload_expect).
Proof.
  destruct (@table_written_only_by_read_and_disconnect Sample.http11
              (Sample.after Sample.http11 Sample.upload_expect)
              pres_httperror)
    as (_ & _ & _ & _ & _ & _ & Hrun).
  exact (Hrun 5).
Defined.

Lemma other_connections_witness :
  _clients (@read Sample.http11 8 "garbage"
              (Sample.after Sample.http11 Sample.upload)).1 !! Sample.conn
    = Some (0, 0).
Proof.
  destruct (@other_connections_untouched Sample.http11 8 Sample.conn
              "garbage" (Sample.after Sample.http11 Sample.upload))
    as [Hread _].
  - discriminate.
  - rewrite Hread. vm_compute. reflexivity.
Defined.

Lemma done_witness :
  @still_done 0
    (@read Sample.http11 Sample.conn (Sample.get "/" "HTTP/1.1")
       (@run Sample.http11 5
          (Sample.after Sample.http11 (Sample.get "/a#f" "HTTP/1.1"))).1.1).1.
Proof.
  destruct (@done_is_never_reset Sample.http11 0
              (@run Sample.http11 5
                 (Sample.after Sample.http11 (Sample.get "/a#f" "HTTP/1.1"))).1.1
              pres_httperror)
    as (Hread & _).
  - eexists. split; [vm_compute; reflexivity|reflexivity].
  - apply Hread.
Defined.

Lemma queue_witness :
  @appended_to (Sample.after Sample.http11 Sample.upload_expect)
    (@read Sample.http11 Sample.conn "abcde"
       (Sample.after Sample.http11 Sample.upload_expect)).1.
Proof.
  destruct (@handlers_only_append_to_queue Sample.http11
              (Sample.after Sample.http11 Sample.upload_expect)
              pres_httperror) as (Hread & _).
  apply Hread.
Defined.
